(** * The chapter-2 notebook [content/c2/code.ipynb]

    The notebook is a flat Python script: imports, calls into scikit-learn
    and statsmodels, and one block of arithmetic (the "hidden chunk" of the
    Bayesian-regression section) that derives the Gamma hyperparameters
    handed to [BayesianRidge].

    The script is embedded statement by statement in a state-and-exception
    monad over the notebook's global namespace.  Library objects are kept
    symbolic (the module, attribute, item or call that produced them) and
    every library call is recorded in a log, so that what is passed to which
    call can be read off the final state. *)

From stdpp Require Import base gmap strings list.
From Stdlib Require Import ZArith QArith Qpower Qabs Qcanon SpecFloat Lia Lqa.

Set Warnings "-register-all".

(** ** Numbers

    The arithmetic block only divides and multiplies.  It is written once,
    over an interface of those operations, and read at two instances: exact
    rationals (the mathematical value of each expression) and IEEE binary64
    (what CPython computes).  The integer literals of the script (1, 10,
    10**5) are exactly representable, so int and float operands are not
    told apart: [1/10], [big_number*alpha] give the same number either way. *)

Class Float (F : Type) := {
  of_Q : Q -> F;                 (* value of a decimal or integer literal *)
  fdiv : F -> F -> F;            (* [x / y] for a nonzero [y] *)
  fmul : F -> F -> F;            (* [x * y] *)
  is_zero : F -> bool;           (* [y == 0], the test behind ZeroDivisionError *)
  is_pos : F -> bool             (* [0 < x] *)
}.

Class FloatLaws (F : Type) `{Float F} := {
  pos_nonzero : forall x : F, is_pos x = true -> is_zero x = false
}.

Definition of_Z {F} `{Float F} (z : Z) : F := of_Q (inject_Z z).

(** Exact rational arithmetic. *)
Definition Qc_is_zero (x : Qc) : bool := bool_decide (x = Q2Qc 0).
Definition Qc_is_pos (x : Qc) : bool := bool_decide (Q2Qc 0 < x)%Qc.

#[export] Instance Qc_Float : Float Qc := {|
  of_Q := Q2Qc;
  fdiv := Qcdiv;
  fmul := Qcmult;
  is_zero := Qc_is_zero;
  is_pos := Qc_is_pos
|}.

(** IEEE 754 binary64, as in CPython's [float]. *)
Definition prec : Z := 53.
Definition emax : Z := 1024.

Definition b64_of_Z (z : Z) : spec_float := binary_normalize prec emax z 0 false.

(* A literal [n/d] with [n] and [d] below 2^53 is the correctly rounded
   quotient of two exact floats, that is the float nearest to the literal. *)
Definition b64_of_Q (q : Q) : spec_float :=
  SFdiv prec emax (b64_of_Z (Qnum q)) (b64_of_Z (Zpos (Qden q))).

Definition b64_is_zero (x : spec_float) : bool :=
  match x with S754_zero _ => true | _ => false end.

Definition b64_is_pos (x : spec_float) : bool :=
  SFltb (S754_zero false) x.

#[export] Instance b64_Float : Float spec_float := {|
  of_Q := b64_of_Q;
  fdiv := SFdiv prec emax;
  fmul := SFmul prec emax;
  is_zero := b64_is_zero;
  is_pos := b64_is_pos
|}.

(** Mean and variance of a Gamma distribution with the given shape and
    rate, the quantities the invariants of the hyperpriors are stated on. *)
Definition gamma_mean (shape rate : Qc) : Qc := (shape / rate)%Qc.
Definition gamma_variance (shape rate : Qc) : Qc := (shape / rate ^ 2)%Qc.

(** The rational a finite binary64 number stands for. *)
Definition b64_to_Q (x : spec_float) : option Q :=
  match x with
  | S754_zero _ => Some 0%Q
  | S754_finite s m e =>
      let v := (inject_Z (Zpos m) * Qpower 2 e)%Q in
      Some (if s then Qopp v else v)
  | _ => None
  end.

(** [x] is within [tol] of the rational [target]. *)
Definition b64_near (x : spec_float) (target tol : Q) : bool :=
  match b64_to_Q x with
  | Some q => Qle_bool (Qabs (q - target)) tol
  | None => false
  end.

(** ** Binary64 values and rounding *)

(** Where a rational [N/D] lies with respect to a shift record: at its
    mantissa [m], in the lower half of [m, m+1], at the midpoint, or in the
    upper half, as the round and sticky bits say. *)
Definition inbetween (mrs : shr_record) (N D : Z) : Prop :=
  let m := shr_m mrs in
  match shr_r mrs, shr_s mrs with
  | false, false => (N = m * D)%Z
  | false, true => (m * D < N /\ 2 * N < (2 * m + 1) * D)%Z
  | true, false => (2 * N = (2 * m + 1) * D)%Z
  | true, true => ((2 * m + 1) * D < 2 * N /\ N < (m + 1) * D)%Z
  end.

(** Bound on the relative error of one operation whose result is normal. *)
Definition u64 : Q := (3 # (2 ^ 53))%Q.

(** The value of a finite number (0 for infinities and NaN). *)
Definition b64_val (x : spec_float) : Q :=
  match b64_to_Q x with Some q => q | None => 0%Q end.

(** Finite and strictly positive. *)
Definition b64_pos_finite (x : spec_float) : bool :=
  match x with S754_finite false _ _ => true | _ => false end.

(** Positive and normal: a finite number with a full 53-bit mantissa. *)
Definition b64_pos_normal (x : spec_float) : bool :=
  match x with S754_finite false m _ => (2 ^ 52 <=? Zpos m)%Z | _ => false end.

(** Tolerances of the two invariants in binary64. *)
Definition eps_mean : Q := (1 # (2 ^ 50))%Q.
Definition eta_scale : Q := (1 # (2 ^ 48))%Q.

(** [alpha_1 / alpha_2] and [alpha_1 / alpha_2**2] as Python evaluates them
    on floats, the square being the correctly rounded product. *)
Definition b64_mean (shape rate : spec_float) : spec_float :=
  fdiv shape rate.

Definition b64_variance (shape rate : spec_float) : spec_float :=
  fdiv shape (fmul rate rate).

(** ** Values, exceptions and the interpreter state *)

(** The exceptions the script can meet. *)
Inductive exn :=
| NameError (name : string)
| ZeroDivisionError
| TypeError
| AttributeError (name : string).

(** A statement either completes or raises. *)
Inductive outcome (A : Type) :=
| Done (a : A)
| Raised (e : exn).
Arguments Done {A} a.
Arguments Raised {A} e.

Section Script.
Context {F : Type} `{Float F}.

(** Python values.  The last four constructors are library objects, named
    by the way the script obtained them. *)
Inductive value :=
| VNum (x : F)
| VStr (s : string)
| VList (l : list value)
| VNone
| VBuiltin (name : string)
| VModule (path : string)
| VAttr (obj : value) (name : string)
| VItem (obj : value) (key : value)
| VCall (f : value) (args : list value) (kwargs : list (string * value)).

(** What the script does to the outside: calls into a library, and prints. *)
Inductive event :=
| ECall (f : value) (args : list value) (kwargs : list (string * value))
| EPrint (args : list value).

Record state := State {
  globals : gmap string value;   (* the notebook's global namespace *)
  log : list event               (* oldest event first *)
}.

Definition M (A : Type) : Type := state -> outcome A * state.

Definition ret {A} (a : A) : M A := fun s => (Done a, s).

Definition raise {A} (e : exn) : M A := fun s => (Raised e, s).

Definition bind {A B} (m : M A) (k : A -> M B) : M B :=
  fun s =>
    match m s with
    | (Done a, s') => k a s'
    | (Raised e, s') => (Raised e, s')
    end.

Notation "x <- m ;; k" := (bind m (fun x => k))
  (at level 100, m at next level, right associativity).
Notation "m ;; k" := (bind m (fun _ => k))
  (at level 100, right associativity).

(** The only builtin the notebook uses. *)
Definition builtins (name : string) : option value :=
  if String.eqb name "print" then Some (VBuiltin "print") else None.

(** Name lookup: globals, then builtins, else NameError. *)
Definition load_name (name : string) : M value :=
  fun s =>
    match globals s !! name with
    | Some v => (Done v, s)
    | None =>
        match builtins name with
        | Some v => (Done v, s)
        | None => (Raised (NameError name), s)
        end
    end.

Definition store_name (name : string) (v : value) : M unit :=
  fun s => (Done tt, State (<[name := v]> (globals s)) (log s)).

Definition emit (e : event) : M unit :=
  fun s => (Done tt, State (globals s) (log s ++ [e])).

(** Size of a value, to tell an object from the objects built on it. *)
Fixpoint value_size (v : value) : nat :=
  match v with
  | VList l => S (list_sum (map value_size l))
  | VAttr o _ => S (value_size o)
  | VItem o k => S (value_size o + value_size k)
  | VCall f args kwargs =>
      S (value_size f + list_sum (map value_size args)
         + list_sum (map (fun kv => value_size (snd kv)) kwargs))
  | _ => 1
  end.

Definition is_library (v : value) : bool :=
  match v with
  | VModule _ | VAttr _ _ | VItem _ _ | VCall _ _ _ => true
  | _ => false
  end.

(** [o.name] and [o[key]]; the notebook applies them to library objects only.
    A library object is taken to have the attribute or the item asked for:
    an AttributeError or KeyError raised by the library is not modelled. *)
Definition getattr (o : value) (name : string) : M value :=
  if is_library o then ret (VAttr o name) else raise (AttributeError name).

Definition getitem (o key : value) : M value :=
  if is_library o then ret (VItem o key) else raise TypeError.

(** A call [f (args, kwargs)]: [print] writes its arguments, a library callable
    returns the object named by the call, anything else is not callable.  A
    library call is taken to return: what a library raises inside a call is
    not modelled. *)
Definition is_callable (v : value) : bool :=
  match v with
  | VAttr _ _ | VItem _ _ | VCall _ _ _ => true
  | _ => false
  end.

Definition call (f : value) (args : list value) (kwargs : list (string * value)) : M value :=
  match f with
  | VBuiltin _ => emit (EPrint args) ;; ret VNone
  | _ =>
      if is_callable f
      then emit (ECall f args kwargs) ;; ret (VCall f args kwargs)
      else raise TypeError
  end.

(** [a / b] and [a * b] on numbers. *)
Definition truediv (a b : value) : M value :=
  match a, b with
  | VNum x, VNum y => if is_zero y then raise ZeroDivisionError else ret (VNum (fdiv x y))
  | _, _ => raise TypeError
  end.

Definition mul (a b : value) : M value :=
  match a, b with
  | VNum x, VNum y => ret (VNum (fmul x y))
  | _, _ => raise TypeError
  end.

(** [import module as alias] and [from module import name].  The modules are
    taken to be installed: an import is a binding and raises no ImportError. *)
Definition import_as (module alias : string) : M unit :=
  store_name alias (VModule module).

Definition from_import (module name : string) : M unit :=
  store_name name (VAttr (VModule module) name).

(** [model.fit(X_train, y_train)] for the model bound to [name]. *)
Definition fit_model (name : string) : M unit :=
  m <- load_name name ;;
  fit <- getattr m "fit" ;;
  x <- load_name "X_train" ;;
  y <- load_name "y_train" ;;
  call fit [x; y] [] ;;
  ret tt.

(** ** The cells of the notebook *)

(** Cell 1: imports and the Boston data. *)
Definition cell_data : M unit :=
  import_as "numpy" "np" ;;
  import_as "matplotlib.pyplot" "plt" ;;
  import_as "seaborn" "sns" ;;
  from_import "sklearn" "datasets" ;;
  (* boston = datasets.load_boston() *)
  d <- load_name "datasets" ;;
  f <- getattr d "load_boston" ;;
  b <- call f [] [] ;;
  store_name "boston" b ;;
  (* X_train = boston['data'] *)
  b <- load_name "boston" ;;
  x <- getitem b (VStr "data") ;;
  store_name "X_train" x ;;
  (* y_train = boston['target'] *)
  b <- load_name "boston" ;;
  y <- getitem b (VStr "target") ;;
  store_name "y_train" y.

(** [name = Estimator(key = <value of var>)], the shape of the four
    constructor lines of cells 2 and 3. *)
Definition construct (name estimator key var : string) : M unit :=
  c <- load_name estimator ;;
  a <- load_name var ;;
  m <- call c [] [(key, a)] ;;
  store_name name m.

(** Cell 2: Ridge and Lasso with [alpha = 1]. *)
Definition cell_regularized : M unit :=
  from_import "sklearn.linear_model" "Ridge" ;;
  from_import "sklearn.linear_model" "Lasso" ;;
  store_name "alpha" (VNum (of_Z 1)) ;;
  construct "ridge_model" "Ridge" "alpha" "alpha" ;;
  fit_model "ridge_model" ;;
  construct "lasso_model" "Lasso" "alpha" "alpha" ;;
  fit_model "lasso_model".

(** Cell 3: cross-validated Ridge and Lasso. *)
Definition cell_cv : M unit :=
  from_import "sklearn.linear_model" "RidgeCV" ;;
  from_import "sklearn.linear_model" "LassoCV" ;;
  store_name "alphas" (VList [VNum (of_Q (1 # 100)); VNum (of_Z 1); VNum (of_Z 100)]) ;;
  construct "ridgeCV_model" "RidgeCV" "alphas" "alphas" ;;
  fit_model "ridgeCV_model" ;;
  construct "lassoCV_model" "LassoCV" "alphas" "alphas" ;;
  fit_model "lassoCV_model".

(** [print(label, obj.alpha_)] for the object bound to [name]. *)
Definition print_alpha (label name : string) : M unit :=
  p <- load_name "print" ;;
  o <- load_name name ;;
  a <- getattr o "alpha_" ;;
  call p [VStr label; a] [] ;;
  ret tt.

(** Cell 4: report the selected penalties. *)
Definition cell_report : M unit :=
  print_alpha "Ridge alpha:" "ridgeCV" ;;
  print_alpha "Lasso alpha:" "lassoCV".

(** Cell 5: Bayesian ridge with the default hyperpriors. *)
Definition cell_bayes : M unit :=
  from_import "sklearn.linear_model" "BayesianRidge" ;;
  c <- load_name "BayesianRidge" ;;
  m <- call c [] [] ;;
  store_name "bayes_model" m ;;
  fit_model "bayes_model".

(** ** The fixed-precision block (the hidden chunk of the Bayesian section)

    [hyperparameters] is the arithmetic, lines [big_number = 10**5] to
    [lambda_2 = big_number], with the three literals [11.8], [10] and
    [10**5] taken as parameters [sigma2], [tau] and [confidence_scale]. *)
Definition hyperparameters (sigma2 tau confidence_scale : value) : M unit :=
  (* big_number = 10**5 *)
  store_name "big_number" confidence_scale ;;
  (* alpha = 1/11.8 *)
  a <- truediv (VNum (of_Z 1)) sigma2 ;;
  store_name "alpha" a ;;
  (* alpha_1 = big_number*alpha *)
  b <- load_name "big_number" ;;
  a <- load_name "alpha" ;;
  a1 <- mul b a ;;
  store_name "alpha_1" a1 ;;
  (* alpha_2 = big_number *)
  b <- load_name "big_number" ;;
  store_name "alpha_2" b ;;
  (* lam = 1/10 *)
  l <- truediv (VNum (of_Z 1)) tau ;;
  store_name "lam" l ;;
  (* lambda_1 = big_number*lam *)
  b <- load_name "big_number" ;;
  l <- load_name "lam" ;;
  l1 <- mul b l ;;
  store_name "lambda_1" l1 ;;
  (* lambda_2 = big_number *)
  b <- load_name "big_number" ;;
  store_name "lambda_2" b.

(** The fitting call that consumes them. *)
Definition fit_fixed : M unit :=
  c <- load_name "BayesianRidge" ;;
  a1 <- load_name "alpha_1" ;;
  a2 <- load_name "alpha_2" ;;
  a <- load_name "alpha" ;;
  l1 <- load_name "lambda_1" ;;
  l2 <- load_name "lambda_2" ;;
  l <- load_name "lam" ;;
  m <- call c [] [("alpha_1", a1); ("alpha_2", a2); ("alpha_init", a);
                  ("lambda_1", l1); ("lambda_2", l2); ("lambda_init", l)] ;;
  store_name "bayes_model" m ;;
  fit_model "bayes_model".

Definition fixed_precision_block (sigma2 tau confidence_scale : value) : M unit :=
  hyperparameters sigma2 tau confidence_scale ;;
  fit_fixed.

(** The block as the notebook has it. *)
Definition sigma2_lit : value := VNum (of_Q (118 # 10)).
Definition tau_lit : value := VNum (of_Z 10).
Definition big_number_lit : value := VNum (of_Z (10 ^ 5)).

Definition cell_bayes_fixed : M unit :=
  fixed_precision_block sigma2_lit tau_lit big_number_lit.

(** The six values the block derives, under the names the specification
    gives them ([lambda_param] is the script's [lam]). *)
Record hyper := Hyper {
  alpha_1 : value;
  alpha_2 : value;
  lambda_1 : value;
  lambda_2 : value;
  alpha : value;
  lambda_param : value
}.

Definition read_hyper (g : gmap string value) : option hyper :=
  a1 ← g !! "alpha_1";
  a2 ← g !! "alpha_2";
  l1 ← g !! "lambda_1";
  l2 ← g !! "lambda_2";
  a ← g !! "alpha";
  l ← g !! "lam";
  Some (Hyper a1 a2 l1 l2 a l).

(** The configurator of the specification: run the arithmetic, then read
    the six values off the namespace. *)
Definition configurator (sigma2 tau confidence_scale : value) (s : state) : outcome hyper :=
  match hyperparameters sigma2 tau confidence_scale s with
  | (Done _, s') =>
      match read_hyper (globals s') with
      | Some h => Done h
      | None => Raised (NameError "alpha_1")
      end
  | (Raised e, _) => Raised e
  end.

(** The names the arithmetic binds. *)
Definition output_names : list string :=
  ["alpha_1"; "alpha_2"; "lambda_1"; "lambda_2"; "alpha"; "lam"].

Definition bound_names : list string := "big_number" :: output_names.

(** ** Poisson regression (cell 6) *)

(** [import statsmodels.api as sm] and
    [X_train_with_constant = sm.add_constant(X_train)]. *)
Definition cell_poisson_design : M unit :=
  import_as "statsmodels.api" "sm" ;;
  m <- load_name "sm" ;;
  f <- getattr m "add_constant" ;;
  x <- load_name "X_train" ;;
  v <- call f [x] [] ;;
  store_name "X_train_with_constant" v.

(** [poisson_model = sm.GLM(y_train, X_train, family=sm.families.Poisson())]
    and [poisson_model.fit()]. *)
Definition cell_poisson_fit : M unit :=
  m <- load_name "sm" ;;
  glm <- getattr m "GLM" ;;
  y <- load_name "y_train" ;;
  x <- load_name "X_train" ;;
  m' <- load_name "sm" ;;
  fams <- getattr m' "families" ;;
  p <- getattr fams "Poisson" ;;
  fam <- call p [] [] ;;
  model <- call glm [y; x] [("family", fam)] ;;
  store_name "poisson_model" model ;;
  model <- load_name "poisson_model" ;;
  fit <- getattr model "fit" ;;
  call fit [] [] ;;
  ret tt.

Definition cell_poisson : M unit :=
  cell_poisson_design ;;
  cell_poisson_fit.

(** ** Running the notebook *)

(** A fresh kernel. *)
Definition fresh : state := State ∅ [].

(** The cells before the reporting cell. *)
Definition cells_before_report : M unit :=
  cell_data ;;
  cell_regularized ;;
  cell_cv.

(** The code cells, top to bottom.  The fixed-precision block sits in a
    markdown cell and is not part of a run. *)
Definition notebook : M unit :=
  cells_before_report ;;
  cell_report ;;
  cell_bayes ;;
  cell_poisson.

(** The kernel in which the fixed-precision block is tried: the data, the
    regularized models and the default Bayesian model are there. *)
Definition before_fixed_block : state :=
  snd ((cells_before_report ;; cell_bayes) fresh).

Definition is_print (e : event) : bool :=
  match e with EPrint _ => true | ECall _ _ _ => false end.

(** What a run has written to the output. *)
Definition printed (s : state) : list event := List.filter is_print (log s).

End Script.

(** * Properties *)

#[export] Instance Qc_FloatLaws : FloatLaws Qc.
Proof.
  split. intros x Hx. cbn in *. unfold Qc_is_pos, Qc_is_zero in *.
  apply bool_decide_eq_true in Hx. apply bool_decide_eq_false.
  intros ->. apply Qclt_not_eq in Hx. by apply Hx.
Qed.

#[export] Instance b64_FloatLaws : FloatLaws spec_float.
Proof.
  split. intros [s| s| |s m e]; cbn; try reflexivity; destruct s; discriminate.
Qed.

(** ** Running the arithmetic block *)

Section Arithmetic.
Context {F : Type} `{FloatLaws F}.
Implicit Types (s : state (F:=F)) (x y b : F).

(** The namespace the arithmetic leaves behind. *)
Lemma hyperparameters_run s x y b :
  is_zero x = false -> is_zero y = false ->
  hyperparameters (VNum x) (VNum y) (VNum b) s =
  (Done tt,
   State (<["lambda_2" := VNum b]>
          (<["lambda_1" := VNum (fmul b (fdiv (of_Z 1) y))]>
          (<["lam" := VNum (fdiv (of_Z 1) y)]>
          (<["alpha_2" := VNum b]>
          (<["alpha_1" := VNum (fmul b (fdiv (of_Z 1) x))]>
          (<["alpha" := VNum (fdiv (of_Z 1) x)]>
          (<["big_number" := VNum b]> (globals s))))))))
         (log s)).
Proof.
  intros Hx Hy.
  unfold hyperparameters, bind, store_name, load_name, truediv, mul, ret, raise.
  cbn [globals log]. rewrite Hx, Hy. by simplify_map_eq.
Qed.

Lemma hyperparameters_zero_sigma2 s x y b :
  is_zero x = true ->
  hyperparameters (VNum x) (VNum y) (VNum b) s =
  (Raised ZeroDivisionError, State (<["big_number" := VNum b]> (globals s)) (log s)).
Proof.
  intros Hx.
  unfold hyperparameters, bind, store_name, load_name, truediv, mul, ret, raise.
  cbn [globals log]. by rewrite Hx.
Qed.

Lemma hyperparameters_zero_tau s x y b :
  is_zero x = false -> is_zero y = true ->
  hyperparameters (VNum x) (VNum y) (VNum b) s =
  (Raised ZeroDivisionError,
   State (<["alpha_2" := VNum b]>
          (<["alpha_1" := VNum (fmul b (fdiv (of_Z 1) x))]>
          (<["alpha" := VNum (fdiv (of_Z 1) x)]>
          (<["big_number" := VNum b]> (globals s)))))
         (log s)).
Proof.
  intros Hx Hy.
  unfold hyperparameters, bind, store_name, load_name, truediv, mul, ret, raise.
  cbn [globals log]. rewrite Hx, Hy. by simplify_map_eq.
Qed.

Lemma configurator_run s x y b :
  is_zero x = false -> is_zero y = false ->
  configurator (VNum x) (VNum y) (VNum b) s =
  Done (Hyper (VNum (fmul b (fdiv (of_Z 1) x))) (VNum b)
              (VNum (fmul b (fdiv (of_Z 1) y))) (VNum b)
              (VNum (fdiv (of_Z 1) x)) (VNum (fdiv (of_Z 1) y))).
Proof.
  intros Hx Hy. unfold configurator.
  rewrite hyperparameters_run by done.
  unfold read_hyper. cbn [globals]. by simplify_map_eq.
Qed.

Lemma call_callable (f : value (F:=F)) args kwargs s :
  is_callable f = true ->
  call f args kwargs s =
  (Done (VCall f args kwargs), State (globals s) (log s ++ [ECall f args kwargs])).
Proof. by destruct f. Qed.

(** The arithmetic never touches the log: it prints nothing and calls no library. *)
Lemma hyperparameters_log s x y b :
  log (snd (hyperparameters (VNum x) (VNum y) (VNum b) s)) = log s.
Proof.
  destruct (is_zero x) eqn:Hx.
  - by rewrite hyperparameters_zero_sigma2.
  - destruct (is_zero y) eqn:Hy.
    + by rewrite hyperparameters_zero_tau.
    + by rewrite hyperparameters_run.
Qed.

(** Its outcome does not depend on the state it starts from. *)
Lemma configurator_state_independent s1 s2 x y b :
  configurator (VNum x) (VNum y) (VNum b) s1 = configurator (VNum x) (VNum y) (VNum b) s2.
Proof.
  destruct (is_zero x) eqn:Hx.
  - unfold configurator. by rewrite !hyperparameters_zero_sigma2.
  - destruct (is_zero y) eqn:Hy.
    + unfold configurator. by rewrite !hyperparameters_zero_tau.
    + by rewrite !configurator_run.
Qed.

(** The whole block, from a namespace in which the estimator and the data
    are bound: the six values go to the constructor, by keyword. *)
Lemma fixed_precision_block_run s x y b (c vx vy : value) :
  is_zero x = false -> is_zero y = false ->
  globals s !! "BayesianRidge" = Some c -> is_callable c = true ->
  globals s !! "X_train" = Some vx -> globals s !! "y_train" = Some vy ->
  let kwargs :=
    [("alpha_1", VNum (fmul b (fdiv (of_Z 1) x))); ("alpha_2", VNum b);
     ("alpha_init", VNum (fdiv (of_Z 1) x));
     ("lambda_1", VNum (fmul b (fdiv (of_Z 1) y))); ("lambda_2", VNum b);
     ("lambda_init", VNum (fdiv (of_Z 1) y))] in
  exists g,
    fixed_precision_block (VNum x) (VNum y) (VNum b) s =
    (Done tt,
     State g (log s ++ [ECall c [] kwargs;
                        ECall (VAttr (VCall c [] kwargs) "fit") [vx; vy] []])).
Proof.
  intros Hx Hy Hc Hcall Hvx Hvy kwargs.
  unfold fixed_precision_block. unfold bind at 1.
  rewrite hyperparameters_run by done.
  unfold fit_fixed, fit_model, bind, load_name, store_name, getattr, ret.
  cbn [globals log]. simplify_map_eq.
  rewrite call_callable by done. cbn [globals log]. simplify_map_eq.
  rewrite <- app_assoc. by eexists.
Qed.

(** *** Claims on the configurator, for any arithmetic *)

(** C3 (computation definition).  For strictly positive [sigma2], [tau] and
    [confidence_scale] the configurator returns the six values
    [alpha = 1/sigma2], [lambda_param = 1/tau],
    [alpha_1 = confidence_scale * alpha], [alpha_2 = confidence_scale],
    [lambda_1 = confidence_scale * lambda_param], [lambda_2 = confidence_scale];
    the block hands them to the [BayesianRidge] constructor as [alpha_1],
    [alpha_2], [lambda_1], [lambda_2], with [alpha] and [lambda_param] as the
    seeds [alpha_init] and [lambda_init], and then fits that model. *)
Theorem configurator_computes s (sigma2 tau confidence_scale : F) (c vx vy : value) :
  is_pos sigma2 = true -> is_pos tau = true -> is_pos confidence_scale = true ->
  globals s !! "BayesianRidge" = Some c -> is_callable c = true ->
  globals s !! "X_train" = Some vx -> globals s !! "y_train" = Some vy ->
  exists h g,
    configurator (VNum sigma2) (VNum tau) (VNum confidence_scale) s = Done h /\
    alpha h = VNum (fdiv (of_Z 1) sigma2) /\
    lambda_param h = VNum (fdiv (of_Z 1) tau) /\
    alpha_1 h = VNum (fmul confidence_scale (fdiv (of_Z 1) sigma2)) /\
    alpha_2 h = VNum confidence_scale /\
    lambda_1 h = VNum (fmul confidence_scale (fdiv (of_Z 1) tau)) /\
    lambda_2 h = VNum confidence_scale /\
    let kwargs :=
      [("alpha_1", alpha_1 h); ("alpha_2", alpha_2 h); ("alpha_init", alpha h);
       ("lambda_1", lambda_1 h); ("lambda_2", lambda_2 h);
       ("lambda_init", lambda_param h)] in
    fixed_precision_block (VNum sigma2) (VNum tau) (VNum confidence_scale) s =
    (Done tt,
     State g (log s ++ [ECall c [] kwargs;
                        ECall (VAttr (VCall c [] kwargs) "fit") [vx; vy] []])).
Proof.
  intros Hs Ht _ Hc Hcall Hvx Hvy.
  apply pos_nonzero in Hs, Ht.
  destruct (fixed_precision_block_run s sigma2 tau confidence_scale c vx vy)
    as [g Hg]; try done.
  eexists _, g. rewrite configurator_run by done.
  repeat split. exact Hg.
Qed.

(** C5 (exact rate components).  For strictly positive inputs, [alpha_2] and
    [lambda_2] are the confidence scale itself. *)
Theorem rate_components_exact s (sigma2 tau confidence_scale : F) :
  is_pos sigma2 = true -> is_pos tau = true -> is_pos confidence_scale = true ->
  exists h,
    configurator (VNum sigma2) (VNum tau) (VNum confidence_scale) s = Done h /\
    alpha_2 h = VNum confidence_scale /\
    lambda_2 h = VNum confidence_scale.
Proof.
  intros Hs Ht _. apply pos_nonzero in Hs, Ht.
  rewrite configurator_run by done. by eexists.
Qed.

(** C4, as amended (error handling).  The block validates nothing and has no
    InvalidArgument condition.  It fails exactly when [sigma2] or [tau] is
    zero, with the ZeroDivisionError of the division, before any library
    call is made (the log is unchanged); when neither is zero it returns six
    values, whatever the signs and whatever [confidence_scale]; in
    particular strictly positive inputs never fail. *)
Theorem fails_only_on_zero s (sigma2 tau confidence_scale : F) :
  let r := fixed_precision_block (VNum sigma2) (VNum tau) (VNum confidence_scale) s in
  (is_zero sigma2 || is_zero tau = true ->
     configurator (VNum sigma2) (VNum tau) (VNum confidence_scale) s
       = Raised ZeroDivisionError /\
     fst r = Raised ZeroDivisionError /\
     log (snd r) = log s) /\
  (is_zero sigma2 || is_zero tau = false ->
     exists h, configurator (VNum sigma2) (VNum tau) (VNum confidence_scale) s = Done h) /\
  (is_pos sigma2 = true -> is_pos tau = true -> is_pos confidence_scale = true ->
     exists h, configurator (VNum sigma2) (VNum tau) (VNum confidence_scale) s = Done h).
Proof.
  intros r. subst r. split; [|split].
  - intros Hz. unfold configurator, fixed_precision_block, bind.
    destruct (is_zero sigma2) eqn:Hs.
    + by rewrite hyperparameters_zero_sigma2.
    + cbn in Hz. by rewrite hyperparameters_zero_tau.
  - intros [Hs Ht]%orb_false_elim. rewrite configurator_run by done. by eexists.
  - intros Hs Ht _. apply pos_nonzero in Hs, Ht.
    rewrite configurator_run by done. by eexists.
Qed.

(** C8, as amended (determinism, side effects).  The six values depend on the
    three inputs only: from any two namespaces the configurator gives the
    same outcome.  The arithmetic prints nothing and calls no library.  It
    is a script, not a function: it leaves its results as global bindings,
    so the namespace changes at [big_number], [alpha], [alpha_1], [alpha_2],
    [lam], [lambda_1], [lambda_2]; every other name keeps its binding. *)
Theorem depends_only_on_inputs s1 s2 (sigma2 tau confidence_scale : F) :
  configurator (VNum sigma2) (VNum tau) (VNum confidence_scale) s1 =
  configurator (VNum sigma2) (VNum tau) (VNum confidence_scale) s2 /\
  log (snd (hyperparameters (VNum sigma2) (VNum tau) (VNum confidence_scale) s1)) = log s1 /\
  forall name : string,
    name ∉ bound_names ->
    globals (snd (hyperparameters (VNum sigma2) (VNum tau) (VNum confidence_scale) s1)) !! name
    = globals s1 !! name.
Proof.
  split; [apply configurator_state_independent|].
  split; [apply hyperparameters_log|].
  intros name Hname. unfold bound_names, output_names in Hname.
  rewrite !not_elem_of_cons in Hname.
  destruct Hname as (?&?&?&?&?&?&?&_).
  destruct (is_zero sigma2) eqn:Hs.
  - rewrite hyperparameters_zero_sigma2 by done. cbn [snd globals]. by simplify_map_eq.
  - destruct (is_zero tau) eqn:Ht.
    + rewrite hyperparameters_zero_tau by done. cbn [snd globals]. by simplify_map_eq.
    + rewrite hyperparameters_run by done. cbn [snd globals]. by simplify_map_eq.
Qed.

End Arithmetic.

(** ** Exact arithmetic: the invariants of the hyperpriors *)

Section Exact.
Implicit Types (s : state (F:=Qc)) (p B : Qc).
Local Open Scope Qc_scope.

Lemma Qc_pos_is_pos p : 0 < p -> is_pos p = true.
Proof. intros Hp. by apply bool_decide_eq_true. Qed.

Lemma Qc_pos_not_zero p : 0 < p -> is_zero p = false.
Proof. intros Hp. by apply pos_nonzero, Qc_pos_is_pos. Qed.

Lemma Qc_pos_neq p : 0 < p -> p <> 0.
Proof. intros Hp ->. by apply Qclt_not_eq in Hp. Qed.

(** Mean [B*p / B] of the prior the block builds for the precision [p]. *)
Lemma scaled_mean p B : B <> 0 -> gamma_mean (fmul B p) B = p.
Proof. intros HB. unfold gamma_mean. cbn. by field. Qed.

(** Its variance [B*p / B^2] is [p / B]. *)
Lemma scaled_variance p B : B <> 0 -> gamma_variance (fmul B p) B = p * / B.
Proof. intros HB. unfold gamma_variance. cbn. by field. Qed.

Lemma Qcinv_lt_antitone B1 B2 : 0 < B1 -> B1 < B2 -> / B2 < / B1.
Proof.
  intros H1 H12.
  assert (H2 : 0 < B2) by (by eapply Qclt_trans).
  assert (Hpos : 0 < / B1 * / B2) by (by apply Qcmult_pos_pos; apply Qcinv_pos).
  apply (Qcmult_lt_mono_pos_r _ _ _ Hpos) in H12.
  replace (B1 * (/ B1 * / B2)) with (/ B2) in H12
    by (field; split; by apply Qc_pos_neq).
  replace (B2 * (/ B1 * / B2)) with (/ B1) in H12
    by (field; split; by apply Qc_pos_neq).
  done.
Qed.

Lemma scaled_variance_decreasing p B1 B2 :
  0 < p -> 0 < B1 -> B1 < B2 ->
  gamma_variance (fmul B2 p) B2 < gamma_variance (fmul B1 p) B1.
Proof.
  intros Hp H1 H12.
  assert (H2 : 0 < B2) by (by eapply Qclt_trans).
  rewrite !scaled_variance by (by apply Qc_pos_neq).
  apply Qcmult_lt_mono_pos_l; [done|]. by apply Qcinv_lt_antitone.
Qed.

Lemma precision_of_variance p : 0 < p -> fdiv (of_Z 1) p = 1 / p /\ 0 < 1 / p.
Proof.
  intros Hp. split; [done|].
  unfold Qcdiv. rewrite Qcmult_1_l. by apply Qcinv_pos.
Qed.

(** Mean preservation in exact arithmetic (the binary64 statement is
    [mean_preserved_up_to_rounding]).  For strictly positive [sigma2], [tau]
    and [confidence_scale], the configurator's outputs
    satisfy [alpha_1 / alpha_2 = 1/sigma2] and [lambda_1 / lambda_2 = 1/tau],
    whatever the confidence scale. *)
Theorem mean_preservation s (sigma2 tau confidence_scale : Qc) :
  0 < sigma2 -> 0 < tau -> 0 < confidence_scale ->
  exists a1 a2 l1 l2 a l : Qc,
    configurator (VNum sigma2) (VNum tau) (VNum confidence_scale) s
      = Done (Hyper (VNum a1) (VNum a2) (VNum l1) (VNum l2) (VNum a) (VNum l)) /\
    a1 / a2 = 1 / sigma2 /\
    l1 / l2 = 1 / tau.
Proof.
  intros Hs Ht HB.
  rewrite configurator_run by (by apply Qc_pos_not_zero).
  do 6 eexists. split; [reflexivity|].
  apply Qc_pos_neq in HB.
  split; apply (scaled_mean _ _ HB).
Qed.

(** Monotonicity in exact arithmetic (the binary64 statement is
    [variance_decreasing_up_to_rounding]).  For fixed strictly positive
    [sigma2] and [tau] and confidence scales [0 < B1 < B2], the Gamma variance
    [alpha_1 / alpha_2^2] obtained with [B2] is strictly smaller than the one
    obtained with [B1], and likewise [lambda_1 / lambda_2^2]. *)
Theorem variance_decreasing s s' (sigma2 tau B1 B2 : Qc) :
  0 < sigma2 -> 0 < tau -> 0 < B1 -> B1 < B2 ->
  exists a1 a2 l1 l2 a l a1' a2' l1' l2' a' l' : Qc,
    configurator (VNum sigma2) (VNum tau) (VNum B1) s
      = Done (Hyper (VNum a1) (VNum a2) (VNum l1) (VNum l2) (VNum a) (VNum l)) /\
    configurator (VNum sigma2) (VNum tau) (VNum B2) s'
      = Done (Hyper (VNum a1') (VNum a2') (VNum l1') (VNum l2') (VNum a') (VNum l')) /\
    gamma_variance a1' a2' < gamma_variance a1 a2 /\
    gamma_variance l1' l2' < gamma_variance l1 l2.
Proof.
  intros Hs Ht H1 H12.
  rewrite !configurator_run by (by apply Qc_pos_not_zero).
  do 12 eexists. split; [reflexivity|]. split; [reflexivity|].
  destruct (precision_of_variance sigma2 Hs) as [-> Ha].
  destruct (precision_of_variance tau Ht) as [-> Hl].
  split; by apply scaled_variance_decreasing.
Qed.

End Exact.

(** ** The cells before the report, and the report *)

Section Notebook.
Context {F : Type} `{Float F}.
Implicit Types (s : state (F:=F)).

Ltac run_cell :=
  unfold construct, fit_model, import_as, from_import, bind, load_name,
    store_name, getattr, getitem, call, emit, ret, raise;
  cbn [globals log]; simplify_map_eq.

Ltac not_in :=
  rewrite !not_elem_of_cons; repeat split; (discriminate || apply not_elem_of_nil).

Ltac frame :=
  let n := fresh "n" in
  let Hn := fresh "Hn" in
  intros n Hn; rewrite !not_elem_of_cons in Hn; destruct_and!;
  by simplify_map_eq.

Lemma cell_data_run s :
  exists g l vx vy,
    cell_data s = (Done tt, State g (log s ++ l)) /\
    List.filter is_print l = [] /\
    g !! "X_train" = Some vx /\ g !! "y_train" = Some vy /\
    forall n, n ∉ ["np"; "plt"; "sns"; "datasets"; "boston"; "X_train"; "y_train"] ->
              g !! n = globals s !! n.
Proof.
  unfold cell_data. run_cell.
  eexists _, [_], _, _. split; [reflexivity|].
  split; [reflexivity|]. split; [by simplify_map_eq|]. split; [by simplify_map_eq|].
  frame.
Qed.

Lemma cell_regularized_run s vx vy :
  globals s !! "X_train" = Some vx -> globals s !! "y_train" = Some vy ->
  exists g l,
    cell_regularized s = (Done tt, State g (log s ++ l)) /\
    List.filter is_print l = [] /\
    forall n, n ∉ ["Ridge"; "Lasso"; "alpha"; "ridge_model"; "lasso_model"] ->
              g !! n = globals s !! n.
Proof.
  intros Hx Hy. unfold cell_regularized. run_cell.
  eexists _, [_; _; _; _]. rewrite <- !app_assoc. split; [reflexivity|].
  split; [reflexivity|]. frame.
Qed.

Lemma cell_cv_run s vx vy :
  globals s !! "X_train" = Some vx -> globals s !! "y_train" = Some vy ->
  exists g l,
    cell_cv s = (Done tt, State g (log s ++ l)) /\
    List.filter is_print l = [] /\
    is_Some (g !! "ridgeCV_model") /\ is_Some (g !! "lassoCV_model") /\
    forall n, n ∉ ["RidgeCV"; "LassoCV"; "alphas"; "ridgeCV_model"; "lassoCV_model"] ->
              g !! n = globals s !! n.
Proof.
  intros Hx Hy. unfold cell_cv. run_cell.
  eexists _, [_; _; _; _]. rewrite <- !app_assoc. split; [reflexivity|].
  split; [reflexivity|].
  split; [by simplify_map_eq|]. split; [by simplify_map_eq|]. frame.
Qed.

(** Printing the attribute of an unbound name: [print] is found, the name
    is not. *)
Lemma print_alpha_unbound s label name :
  globals s !! name = None -> builtins (F:=F) name = None ->
  print_alpha label name s = (Raised (NameError name), s).
Proof.
  intros Hname Hb. unfold print_alpha, bind, load_name at 1.
  assert (Hp : exists p,
    match globals s !! "print" with
    | Some v => (Done v, s)
    | None => match builtins "print" with
              | Some v => (Done v, s)
              | None => (Raised (NameError "print"), s)
              end
    end = (Done p, s)) by (destruct (globals s !! "print"); by eexists).
  destruct Hp as [p ->]. unfold load_name. by rewrite Hname, Hb.
Qed.

Lemma cells_before_report_run s :
  exists g l,
    cells_before_report s = (Done tt, State g (log s ++ l)) /\
    List.filter is_print l = [] /\
    is_Some (g !! "ridgeCV_model") /\ is_Some (g !! "lassoCV_model") /\
    g !! "ridgeCV" = globals s !! "ridgeCV" /\
    g !! "lassoCV" = globals s !! "lassoCV".
Proof.
  destruct (cell_data_run s) as (g1 & l1 & vx & vy & E1 & P1 & Hx1 & Hy1 & F1).
  destruct (cell_regularized_run (State g1 (log s ++ l1)) vx vy Hx1 Hy1)
    as (g2 & l2 & E2 & P2 & F2).
  cbn [globals log] in *.
  destruct (cell_cv_run (State g2 ((log s ++ l1) ++ l2)) vx vy)
    as (g3 & l3 & E3 & P3 & R3 & L3 & F3).
  { cbn [globals]. rewrite F2; [done|not_in]. }
  { cbn [globals]. rewrite F2; [done|not_in]. }
  cbn [globals log] in *.
  exists g3, (l1 ++ l2 ++ l3).
  split.
  { unfold cells_before_report, bind. rewrite E1, E2, E3.
    by rewrite <- !app_assoc. }
  split.
  { by rewrite !List.filter_app, P1, P2, P3. }
  split; [done|]. split; [done|].
  split.
  - rewrite F3, F2, F1; [done|not_in..].
  - rewrite F3, F2, F1; [done|not_in..].
Qed.

(** C9 (the report cell).  The fitted models are bound to [ridgeCV_model]
    and [lassoCV_model]; the report reads [ridgeCV] and [lassoCV].  From any
    kernel in which [ridgeCV] is not already bound, running the cells up to
    the report completes, and the report then raises NameError on [ridgeCV]
    with nothing printed; its second line, run on its own, raises NameError
    on [lassoCV] in the same way. *)
Theorem report_raises_name_error s :
  globals s !! "ridgeCV" = None ->
  exists s3,
    cells_before_report s = (Done tt, s3) /\
    is_Some (globals s3 !! "ridgeCV_model") /\
    is_Some (globals s3 !! "lassoCV_model") /\
    cell_report s3 = (Raised (NameError "ridgeCV"), s3) /\
    printed s3 = printed s /\
    (globals s !! "lassoCV" = None ->
     print_alpha "Lasso alpha:" "lassoCV" s3 = (Raised (NameError "lassoCV"), s3)).
Proof.
  intros Hridge.
  destruct (cells_before_report_run s) as (g & l & E & P & R & L & Fr & Fl).
  eexists. split; [exact E|]. cbn [globals].
  split; [done|]. split; [done|].
  split.
  { unfold cell_report, bind.
    rewrite print_alpha_unbound; [done| |done]. cbn [globals]. by rewrite Fr. }
  split.
  { unfold printed. cbn [log]. by rewrite List.filter_app, P, app_nil_r. }
  intros Hlasso. apply print_alpha_unbound; [|done]. cbn [globals]. by rewrite Fl.
Qed.

End Notebook.

(** ** The Poisson cell *)

Section Poisson.
Context {F : Type} `{Float F}.
Implicit Types (s : state (F:=F)) (v w : value (F:=F)).

(** An object is not the result of a call it is an argument of. *)
Lemma call_on_neq (f v : value (F:=F)) : VCall f [v] [] <> v.
Proof.
  intros E. apply (f_equal value_size) in E. cbn in E. lia.
Qed.

Lemma cell_poisson_design_run s vx :
  globals s !! "X_train" = Some vx ->
  let sm := VModule "statsmodels.api" in
  let add := ECall (VAttr sm "add_constant") [vx] [] in
  cell_poisson_design s =
  (Done tt,
   State (<["X_train_with_constant" := VCall (VAttr sm "add_constant") [vx] []]>
          (<["sm" := sm]> (globals s)))
         (log s ++ [add])).
Proof.
  intros Hx sm add.
  unfold cell_poisson_design, import_as, bind, load_name, store_name, getattr,
    call, emit, ret.
  cbn [globals log]. by simplify_map_eq.
Qed.

(** The model is built and fitted from what [sm], [y_train] and [X_train]
    are bound to, and from nothing else. *)
Lemma cell_poisson_fit_run s path vx vy :
  globals s !! "sm" = Some (VModule path) ->
  globals s !! "X_train" = Some vx -> globals s !! "y_train" = Some vy ->
  let m := VModule path in
  let family := VCall (VAttr (VAttr m "families") "Poisson") [] [] in
  let model := VCall (VAttr m "GLM") [vy; vx] [("family", family)] in
  cell_poisson_fit s =
  (Done tt,
   State (<["poisson_model" := model]> (globals s))
         (log s ++ [ECall (VAttr (VAttr m "families") "Poisson") [] [];
                    ECall (VAttr m "GLM") [vy; vx] [("family", family)];
                    ECall (VAttr model "fit") [] []])).
Proof.
  intros Hm Hx Hy m family model.
  unfold cell_poisson_fit, bind, load_name, store_name, getattr, call, emit, ret.
  cbn [globals log]. simplify_map_eq.
  by rewrite <- !app_assoc.
Qed.

(** C10 (the Poisson model is fit on the raw design matrix).  With [X_train]
    and [y_train] bound, the cell binds [X_train_with_constant] to the result
    of [sm.add_constant(X_train)], then builds the GLM from [y_train] and
    [X_train] itself, which is not that result, and fits it.  Nothing after
    its binding reads [X_train_with_constant]: with any other value bound to
    it, the construction and the fit make the same calls and yield the same
    model. *)
Theorem poisson_fit_on_raw_design s vx vy :
  globals s !! "X_train" = Some vx -> globals s !! "y_train" = Some vy ->
  let sm := VModule "statsmodels.api" in
  let augmented := VCall (VAttr sm "add_constant") [vx] [] in
  let family := VCall (VAttr (VAttr sm "families") "Poisson") [] [] in
  let model := VCall (VAttr sm "GLM") [vy; vx] [("family", family)] in
  let calls := [ECall (VAttr (VAttr sm "families") "Poisson") [] [];
                ECall (VAttr sm "GLM") [vy; vx] [("family", family)];
                ECall (VAttr model "fit") [] []] in
  exists s1 s2,
    cell_poisson_design s = (Done tt, s1) /\
    cell_poisson s = (Done tt, s2) /\
    globals s2 !! "X_train_with_constant" = Some augmented /\
    globals s2 !! "poisson_model" = Some model /\
    augmented <> vx /\
    log s2 = log s1 ++ calls /\
    forall w,
      exists s2',
        cell_poisson_fit (State (<["X_train_with_constant" := w]> (globals s1)) (log s1))
          = (Done tt, s2') /\
        log s2' = log s1 ++ calls /\
        globals s2' !! "poisson_model" = Some model.
Proof.
  intros Hx Hy sm augmented family model calls.
  pose proof (cell_poisson_design_run s vx Hx) as E1. cbn zeta in E1.
  eexists _, _. split; [exact E1|].
  split.
  { unfold cell_poisson, bind. rewrite E1.
    apply (cell_poisson_fit_run _ "statsmodels.api" vx vy); cbn [globals]; by simplify_map_eq. }
  cbn [globals log].
  split; [by simplify_map_eq|]. split; [by simplify_map_eq|].
  split; [apply call_on_neq|]. split; [done|].
  intros w. eexists. split.
  { apply (cell_poisson_fit_run _ "statsmodels.api" vx vy); cbn [globals]; by simplify_map_eq. }
  cbn [globals log]. split; [done|]. by simplify_map_eq.
Qed.

End Poisson.

(** ** The block as the notebook has it *)

Section WorkedExample.
Local Open Scope Q_scope.

(** C7 (worked example).  With the literals of the script, [sigma2 = 11.8],
    [tau = 10] and [confidence_scale = 10**5], the block computes
    [alpha] = 0.08475 and [alpha_1] = 8474.58 to the digits shown,
    [alpha_2 = lambda_2 = 100000], [lambda_param = 0.1] and
    [lambda_1 = 10000]: in binary64, where [lambda_1] is exactly the float
    10000 and [lambda_param] the float written [0.1], and in exact
    arithmetic, where [alpha = 5/59] and [alpha_1 = 500000/59]. *)
Theorem worked_example :
  (forall s : state (F:=spec_float),
     exists a a1 : spec_float,
       configurator sigma2_lit tau_lit big_number_lit s
         = Done (Hyper (VNum a1) (VNum (of_Z 100000)) (VNum (of_Z 10000))
                       (VNum (of_Z 100000)) (VNum a) (VNum (of_Q (1 # 10)))) /\
       b64_near a (8475 # 100000) (5 # 1000000) = true /\
       b64_near a1 (847458 # 100) (5 # 1000) = true /\
       b64_near (of_Q (1 # 10)) (1 # 10) (1 # 100000000000000000) = true /\
       b64_near (of_Z 10000) 10000 0 = true /\
       b64_near (of_Z 100000) 100000 0 = true) /\
  (forall s : state (F:=Qc),
     configurator sigma2_lit tau_lit big_number_lit s
       = Done (Hyper (VNum (Q2Qc (500000 # 59))) (VNum (Q2Qc 100000))
                     (VNum (Q2Qc 10000)) (VNum (Q2Qc 100000))
                     (VNum (Q2Qc (5 # 59))) (VNum (Q2Qc (1 # 10))))) /\
  Qle_bool (Qabs ((5 # 59) - (8475 # 100000))) (5 # 1000000) = true /\
  Qle_bool (Qabs ((500000 # 59) - (847458 # 100))) (5 # 1000) = true.
Proof.
  split; [|split; [|split]].
  - intros s. unfold sigma2_lit, tau_lit, big_number_lit.
    rewrite configurator_run by reflexivity.
    exists (fdiv (of_Z 1) (of_Q (118 # 10))),
           (fmul (of_Z (10 ^ 5)) (fdiv (of_Z 1) (of_Q (118 # 10)))).
    split; [reflexivity|]. by vm_compute.
  - intros s. unfold sigma2_lit, tau_lit, big_number_lit.
    rewrite configurator_run by reflexivity.
    do 2 f_equal; f_equal; apply Qc_is_canon; reflexivity.
  - reflexivity.
  - reflexivity.
Qed.

End WorkedExample.

(** ** The claims at the notebook's own values *)

Lemma configurator_computes_witness :
  let estimator := VAttr (VModule "sklearn.linear_model") "BayesianRidge" in
  let boston :=
    VCall (VAttr (VAttr (VModule "sklearn") "datasets") "load_boston") [] [] in
  exists h g,
    configurator (F:=spec_float) sigma2_lit tau_lit big_number_lit before_fixed_block
      = Done h /\
    alpha h = VNum (fdiv (of_Z 1) (of_Q (118 # 10))) /\
    lambda_param h = VNum (fdiv (of_Z 1) (of_Z 10)) /\
    alpha_1 h = VNum (fmul (of_Z (10 ^ 5)) (fdiv (of_Z 1) (of_Q (118 # 10)))) /\
    alpha_2 h = VNum (of_Z (10 ^ 5)) /\
    lambda_1 h = VNum (fmul (of_Z (10 ^ 5)) (fdiv (of_Z 1) (of_Z 10))) /\
    lambda_2 h = VNum (of_Z (10 ^ 5)) /\
    let kwargs :=
      [("alpha_1", alpha_1 h); ("alpha_2", alpha_2 h); ("alpha_init", alpha h);
       ("lambda_1", lambda_1 h); ("lambda_2", lambda_2 h);
       ("lambda_init", lambda_param h)] in
    fixed_precision_block sigma2_lit tau_lit big_number_lit before_fixed_block =
    (Done tt,
     State g (log before_fixed_block ++
              [ECall estimator [] kwargs;
               ECall (VAttr (VCall estimator [] kwargs) "fit")
                     [VItem boston (VStr "data"); VItem boston (VStr "target")] []])).
Proof.
  apply (configurator_computes (F:=spec_float) before_fixed_block
           (of_Q (118 # 10)) (of_Z 10) (of_Z (10 ^ 5)));
    vm_compute; reflexivity.
Defined.

Lemma rate_components_exact_witness :
  exists h,
    configurator (F:=spec_float) sigma2_lit tau_lit big_number_lit fresh = Done h /\
    alpha_2 h = big_number_lit /\
    lambda_2 h = big_number_lit.
Proof.
  apply (rate_components_exact (F:=spec_float) fresh
           (of_Q (118 # 10)) (of_Z 10) (of_Z (10 ^ 5)));
    vm_compute; reflexivity.
Defined.

(** C4 as stated fails: a negative variance, or a negative confidence
    scale, is not positive and yet goes through without any exception. *)
Lemma nonpositive_inputs_accepted :
  is_pos (F:=spec_float) (of_Z (-1)) = false /\
  configurator (F:=spec_float) (VNum (of_Z (-1))) (VNum (of_Z 1)) (VNum (of_Z 1)) fresh
    = Done (Hyper (VNum (of_Z (-1))) (VNum (of_Z 1)) (VNum (of_Z 1))
                  (VNum (of_Z 1)) (VNum (of_Z (-1))) (VNum (of_Z 1))) /\
  configurator (F:=spec_float) (VNum (of_Z 1)) (VNum (of_Z 1)) (VNum (of_Z (-1))) fresh
    = Done (Hyper (VNum (of_Z (-1))) (VNum (of_Z (-1))) (VNum (of_Z (-1)))
                  (VNum (of_Z (-1))) (VNum (of_Z 1)) (VNum (of_Z 1))).
Proof. vm_compute. repeat split. Qed.

Lemma fails_only_on_zero_witness :
  (configurator (F:=spec_float) (VNum (of_Z 0)) tau_lit big_number_lit before_fixed_block
     = Raised ZeroDivisionError /\
   fst (fixed_precision_block (F:=spec_float) (VNum (of_Z 0)) tau_lit big_number_lit
          before_fixed_block) = Raised ZeroDivisionError /\
   log (snd (fixed_precision_block (F:=spec_float) (VNum (of_Z 0)) tau_lit big_number_lit
               before_fixed_block)) = log before_fixed_block) /\
  (exists h,
     configurator (F:=spec_float) (VNum (of_Z (-1))) tau_lit big_number_lit fresh = Done h) /\
  (exists h,
     configurator (F:=spec_float) sigma2_lit tau_lit big_number_lit fresh = Done h).
Proof.
  split; [|split].
  - refine (proj1 (fails_only_on_zero (F:=spec_float) before_fixed_block
                     (of_Z 0) (of_Z 10) (of_Z (10 ^ 5))) _).
    vm_compute; reflexivity.
  - refine (proj1 (proj2 (fails_only_on_zero (F:=spec_float) fresh
                            (of_Z (-1)) (of_Z 10) (of_Z (10 ^ 5)))) _).
    vm_compute; reflexivity.
  - refine (proj2 (proj2 (fails_only_on_zero (F:=spec_float) fresh
                            (of_Q (118 # 10)) (of_Z 10) (of_Z (10 ^ 5)))) _ _ _);
      vm_compute; reflexivity.
Defined.

(** C8 as stated fails: the block binds [big_number], which is none of the
    six values, and it overwrites the [alpha] that the Ridge and Lasso cell
    had set to 1. *)
Lemma block_rebinds_globals :
  let s : state (F:=spec_float) := before_fixed_block in
  let s' := snd (hyperparameters sigma2_lit tau_lit big_number_lit s) in
  bool_decide ("big_number" ∈ output_names) = false /\
  globals s !! "big_number" = None /\
  globals s' !! "big_number" = Some big_number_lit /\
  globals s !! "alpha" = Some (VNum (of_Z 1)) /\
  globals s' !! "alpha" = Some (VNum (fdiv (of_Z 1) (of_Q (118 # 10)))) /\
  b64_near (fdiv (of_Z 1) (of_Q (118 # 10))) 1 (9 # 10) = false.
Proof. vm_compute. repeat split. Qed.

Lemma depends_only_on_inputs_witness :
  configurator (F:=spec_float) sigma2_lit tau_lit big_number_lit fresh =
  configurator sigma2_lit tau_lit big_number_lit before_fixed_block /\
  log (snd (hyperparameters (F:=spec_float) sigma2_lit tau_lit big_number_lit fresh))
    = log fresh /\
  globals (snd (hyperparameters (F:=spec_float) sigma2_lit tau_lit big_number_lit
                  before_fixed_block)) !! "X_train"
    = globals before_fixed_block !! "X_train".
Proof.
  split; [|split].
  - exact (proj1 (depends_only_on_inputs (F:=spec_float) fresh before_fixed_block
                    (of_Q (118 # 10)) (of_Z 10) (of_Z (10 ^ 5)))).
  - exact (proj1 (proj2 (depends_only_on_inputs (F:=spec_float) fresh fresh
                           (of_Q (118 # 10)) (of_Z 10) (of_Z (10 ^ 5))))).
  - refine (proj2 (proj2 (depends_only_on_inputs (F:=spec_float) before_fixed_block
                            fresh (of_Q (118 # 10)) (of_Z 10) (of_Z (10 ^ 5))))
                  "X_train" _).
    apply (bool_decide_unpack _). vm_compute. exact I.
Defined.

Lemma mean_preservation_witness :
  exists a1 a2 l1 l2 a l : Qc,
    configurator (F:=Qc) sigma2_lit tau_lit big_number_lit fresh
      = Done (Hyper (VNum a1) (VNum a2) (VNum l1) (VNum l2) (VNum a) (VNum l)) /\
    (a1 / a2 = 1 / Q2Qc (118 # 10))%Qc /\
    (l1 / l2 = 1 / Q2Qc 10)%Qc.
Proof.
  apply (mean_preservation fresh (Q2Qc (118 # 10)) (Q2Qc 10) (Q2Qc 100000));
    vm_compute; reflexivity.
Defined.

Lemma variance_decreasing_witness :
  exists a1 a2 l1 l2 a l a1' a2' l1' l2' a' l' : Qc,
    configurator (F:=Qc) sigma2_lit tau_lit (VNum (Q2Qc 10000)) fresh
      = Done (Hyper (VNum a1) (VNum a2) (VNum l1) (VNum l2) (VNum a) (VNum l)) /\
    configurator (F:=Qc) sigma2_lit tau_lit big_number_lit fresh
      = Done (Hyper (VNum a1') (VNum a2') (VNum l1') (VNum l2') (VNum a') (VNum l')) /\
    (gamma_variance a1' a2' < gamma_variance a1 a2)%Qc /\
    (gamma_variance l1' l2' < gamma_variance l1 l2)%Qc.
Proof.
  apply (variance_decreasing fresh fresh (Q2Qc (118 # 10)) (Q2Qc 10)
           (Q2Qc 10000) (Q2Qc 100000));
    vm_compute; reflexivity.
Defined.

Lemma report_raises_name_error_witness :
  exists s3 : state (F:=spec_float),
    cells_before_report fresh = (Done tt, s3) /\
    is_Some (globals s3 !! "ridgeCV_model") /\
    is_Some (globals s3 !! "lassoCV_model") /\
    cell_report s3 = (Raised (NameError "ridgeCV"), s3) /\
    printed s3 = printed fresh /\
    (globals (F:=spec_float) fresh !! "lassoCV" = None ->
     print_alpha "Lasso alpha:" "lassoCV" s3 = (Raised (NameError "lassoCV"), s3)).
Proof.
  apply (report_raises_name_error (F:=spec_float) fresh). vm_compute; reflexivity.
Defined.

(** A run of the whole notebook in a fresh kernel stops at the report. *)
Example notebook_stops_at_report :
  fst (notebook (F:=spec_float) fresh) = Raised (NameError "ridgeCV") /\
  printed (snd (notebook (F:=spec_float) fresh)) = [].
Proof. vm_compute. by split. Qed.

Lemma poisson_fit_on_raw_design_witness :
  let s : state (F:=spec_float) := snd (cell_data fresh) in
  let boston :=
    VCall (VAttr (VAttr (VModule "sklearn") "datasets") "load_boston") [] [] in
  let vx := VItem boston (VStr "data") in
  let vy := VItem boston (VStr "target") in
  let sm := VModule "statsmodels.api" in
  let augmented := VCall (VAttr sm "add_constant") [vx] [] in
  let family := VCall (VAttr (VAttr sm "families") "Poisson") [] [] in
  let model := VCall (VAttr sm "GLM") [vy; vx] [("family", family)] in
  let calls := [ECall (VAttr (VAttr sm "families") "Poisson") [] [];
                ECall (VAttr sm "GLM") [vy; vx] [("family", family)];
                ECall (VAttr model "fit") [] []] in
  exists s1 s2,
    cell_poisson_design s = (Done tt, s1) /\
    cell_poisson s = (Done tt, s2) /\
    globals s2 !! "X_train_with_constant" = Some augmented /\
    globals s2 !! "poisson_model" = Some model /\
    augmented <> vx /\
    log s2 = log s1 ++ calls /\
    forall w,
      exists s2',
        cell_poisson_fit (State (<["X_train_with_constant" := w]> (globals s1)) (log s1))
          = (Done tt, s2') /\
        log s2' = log s1 ++ calls /\
        globals s2' !! "poisson_model" = Some model.
Proof.
  apply (poisson_fit_on_raw_design (F:=spec_float) (snd (cell_data fresh)));
    vm_compute; reflexivity.
Defined.

(** ** Further properties of the cells *)

Section Cells.
Context {F : Type} `{Float F}.
Implicit Types (s : state (F:=F)) (v : value (F:=F)).

Ltac exec :=
  unfold construct, fit_model, import_as, from_import, bind, load_name,
    store_name, getattr, getitem, call, emit, ret, raise;
  cbn [globals log]; simplify_map_eq.

Ltac others_kept :=
  let n := fresh "n" in
  let Hn := fresh "Hn" in
  intros n Hn; rewrite !not_elem_of_cons in Hn; destruct_and!;
  by simplify_map_eq.

(** X1.  Whatever the kernel held before, the data cell makes one library
    call, [load_boston()], and takes both the features and the targets from
    that one object; apart from the seven names it binds, the namespace is
    as before.  (Imports and the call are taken to return.) *)
Theorem data_cell_loads_once s :
  let load := VAttr (VAttr (VModule "sklearn") "datasets") "load_boston" in
  let boston := VCall load [] [] in
  exists g,
    cell_data s = (Done tt, State g (log s ++ [ECall load [] []])) /\
    g !! "boston" = Some boston /\
    g !! "X_train" = Some (VItem boston (VStr "data")) /\
    g !! "y_train" = Some (VItem boston (VStr "target")) /\
    forall n, n ∉ ["np"; "plt"; "sns"; "datasets"; "boston"; "X_train"; "y_train"] ->
              g !! n = globals s !! n.
Proof.
  intros load boston. unfold cell_data. exec.
  eexists. split; [reflexivity|].
  split; [by simplify_map_eq|]. split; [by simplify_map_eq|].
  split; [by simplify_map_eq|]. others_kept.
Qed.

(** X2.  The Ridge and Lasso cell run before the data cell: the Ridge model
    is constructed and bound, its fit then fails with NameError on
    [X_train], and the Lasso model is never constructed. *)
Theorem regularized_needs_data s :
  globals s !! "X_train" = None ->
  let ridge := VAttr (VModule "sklearn.linear_model") "Ridge" in
  let penalty := [("alpha", VNum (of_Z 1))] in
  exists g,
    cell_regularized s
      = (Raised (NameError "X_train"), State g (log s ++ [ECall ridge [] penalty])) /\
    g !! "ridge_model" = Some (VCall ridge [] penalty) /\
    g !! "lasso_model" = globals s !! "lasso_model".
Proof.
  intros Hx ridge penalty. unfold cell_regularized. exec.
  eexists. split; [reflexivity|]. split; by simplify_map_eq.
Qed.

(** X3.  With the data bound, the cell builds Ridge and Lasso with the same
    penalty [alpha = 1] and fits both on the same [X_train] and [y_train]:
    four library calls, in that order, and nothing else. *)
Theorem regularized_same_penalty_same_data s vx vy :
  globals s !! "X_train" = Some vx -> globals s !! "y_train" = Some vy ->
  let ridge := VAttr (VModule "sklearn.linear_model") "Ridge" in
  let lasso := VAttr (VModule "sklearn.linear_model") "Lasso" in
  let penalty := [("alpha", VNum (of_Z 1))] in
  exists g,
    cell_regularized s
      = (Done tt,
         State g (log s ++ [ECall ridge [] penalty;
                            ECall (VAttr (VCall ridge [] penalty) "fit") [vx; vy] [];
                            ECall lasso [] penalty;
                            ECall (VAttr (VCall lasso [] penalty) "fit") [vx; vy] []])) /\
    g !! "ridge_model" = Some (VCall ridge [] penalty) /\
    g !! "lasso_model" = Some (VCall lasso [] penalty) /\
    g !! "X_train" = Some vx /\ g !! "y_train" = Some vy.
Proof.
  intros Hx Hy ridge lasso penalty. unfold cell_regularized. exec.
  eexists. rewrite <- !app_assoc. split; [reflexivity|].
  repeat split; by simplify_map_eq.
Qed.

(** X4.  The cross-validation cell gives RidgeCV and LassoCV the same list
    of candidate penalties, [0.01, 1, 100], and fits both on the same data;
    it binds the fitted models to [ridgeCV_model] and [lassoCV_model]. *)
Theorem cv_same_grid_same_data s vx vy :
  globals s !! "X_train" = Some vx -> globals s !! "y_train" = Some vy ->
  let ridgeCV := VAttr (VModule "sklearn.linear_model") "RidgeCV" in
  let lassoCV := VAttr (VModule "sklearn.linear_model") "LassoCV" in
  let grid := [("alphas", VList [VNum (of_Q (1 # 100)); VNum (of_Z 1); VNum (of_Z 100)])] in
  exists g,
    cell_cv s
      = (Done tt,
         State g (log s ++ [ECall ridgeCV [] grid;
                            ECall (VAttr (VCall ridgeCV [] grid) "fit") [vx; vy] [];
                            ECall lassoCV [] grid;
                            ECall (VAttr (VCall lassoCV [] grid) "fit") [vx; vy] []])) /\
    g !! "ridgeCV_model" = Some (VCall ridgeCV [] grid) /\
    g !! "lassoCV_model" = Some (VCall lassoCV [] grid) /\
    g !! "ridgeCV" = globals s !! "ridgeCV" /\
    g !! "lassoCV" = globals s !! "lassoCV".
Proof.
  intros Hx Hy ridgeCV lassoCV grid. unfold cell_cv. exec.
  eexists. rewrite <- !app_assoc. split; [reflexivity|].
  repeat split; by simplify_map_eq.
Qed.



End Cells.

(** ** Further properties of the fixed-precision block *)

Section Block.
Context {F : Type} `{Float F}.
Implicit Types (s : state (F:=F)) (x y b : F).

Ltac exec :=
  unfold construct, fit_model, import_as, from_import, bind, load_name,
    store_name, getattr, getitem, call, emit, ret, raise;
  cbn [globals log]; simplify_map_eq.

(** X7.  The block run before [BayesianRidge] is imported: the arithmetic
    completes and leaves its seven bindings, then the constructor line
    raises NameError on [BayesianRidge]; no library call is made. *)
Theorem fixed_block_needs_estimator s x y b :
  is_zero x = false -> is_zero y = false ->
  globals s !! "BayesianRidge" = None ->
  fixed_precision_block (VNum x) (VNum y) (VNum b) s
    = (Raised (NameError "BayesianRidge"),
       snd (hyperparameters (VNum x) (VNum y) (VNum b) s)) /\
  log (snd (hyperparameters (VNum x) (VNum y) (VNum b) s)) = log s /\
  is_Some (read_hyper (globals (snd (hyperparameters (VNum x) (VNum y) (VNum b) s)))).
Proof.
  intros Hx Hy Hc. unfold fixed_precision_block. unfold bind at 1.
  rewrite hyperparameters_run by done. cbn [snd log globals].
  split; [|split; [done|]].
  - unfold fit_fixed. by exec.
  - unfold read_hyper. by simplify_map_eq.
Qed.

(** X8.  The default Bayesian cell followed by the block: both models are
    constructed and fitted on the same data, and [bayes_model] ends up bound
    to the second one, built from the six keywords, not to the default
    one. *)
Theorem block_replaces_default_model s x y b vx vy :
  is_zero x = false -> is_zero y = false ->
  globals s !! "X_train" = Some vx -> globals s !! "y_train" = Some vy ->
  let estimator := VAttr (VModule "sklearn.linear_model") "BayesianRidge" in
  let kwargs :=
    [("alpha_1", VNum (fmul b (fdiv (of_Z 1) x))); ("alpha_2", VNum b);
     ("alpha_init", VNum (fdiv (of_Z 1) x));
     ("lambda_1", VNum (fmul b (fdiv (of_Z 1) y))); ("lambda_2", VNum b);
     ("lambda_init", VNum (fdiv (of_Z 1) y))] in
  exists g,
    bind cell_bayes (fun _ => fixed_precision_block (VNum x) (VNum y) (VNum b)) s
      = (Done tt,
         State g (log s ++ [ECall estimator [] [];
                            ECall (VAttr (VCall estimator [] []) "fit") [vx; vy] [];
                            ECall estimator [] kwargs;
                            ECall (VAttr (VCall estimator [] kwargs) "fit") [vx; vy] []])) /\
    g !! "bayes_model" = Some (VCall estimator [] kwargs) /\
    VCall estimator [] kwargs <> VCall estimator [] [].
Proof.
  intros Hx Hy Hvx Hvy estimator kwargs.
  assert (E1 : cell_bayes s =
    (Done tt,
     State (<["bayes_model" := VCall estimator [] []]>
            (<["BayesianRidge" := estimator]> (globals s)))
           (log s ++ [ECall estimator [] [];
                      ECall (VAttr (VCall estimator [] []) "fit") [vx; vy] []]))).
  { unfold cell_bayes. exec. by rewrite <- app_assoc. }
  unfold bind at 1. rewrite E1.
  unfold fixed_precision_block. unfold bind at 1.
  rewrite hyperparameters_run by done. cbn [globals log].
  unfold fit_fixed. exec.
  eexists. rewrite <- !app_assoc. split; [reflexivity|].
  split; [by simplify_map_eq|]. discriminate.
Qed.

(** X9.  Running the arithmetic a second time with the same inputs changes
    nothing: the state after two runs is the state after one. *)
Theorem hyperparameters_idempotent s x y b :
  is_zero x = false -> is_zero y = false ->
  bind (hyperparameters (VNum x) (VNum y) (VNum b))
       (fun _ => hyperparameters (VNum x) (VNum y) (VNum b)) s
  = hyperparameters (VNum x) (VNum y) (VNum b) s.
Proof.
  intros Hx Hy. unfold bind.
  rewrite (hyperparameters_run s) by done.
  rewrite hyperparameters_run by done. cbn [globals log].
  do 2 f_equal. apply map_eq. intros n.
  destruct (decide (n = "lambda_2")) as [->|]; [by simplify_map_eq|].
  destruct (decide (n = "lambda_1")) as [->|]; [by simplify_map_eq|].
  destruct (decide (n = "lam")) as [->|]; [by simplify_map_eq|].
  destruct (decide (n = "alpha_2")) as [->|]; [by simplify_map_eq|].
  destruct (decide (n = "alpha_1")) as [->|]; [by simplify_map_eq|].
  destruct (decide (n = "alpha")) as [->|]; [by simplify_map_eq|].
  destruct (decide (n = "big_number")) as [->|]; [by simplify_map_eq|].
  by simplify_map_eq.
Qed.

End Block.

(** ** Binary64 edge values *)

(** X10.  A NaN variance is not rejected: no exception is raised, and the
    NaN goes into [alpha] and [alpha_1] (the seed and the shape handed to
    the fit) whatever the confidence scale. *)
Theorem nan_variance_propagates (s : state (F:=spec_float)) (tau B : spec_float) :
  is_zero tau = false ->
  exists l1 l : spec_float,
    configurator (VNum S754_nan) (VNum tau) (VNum B) s
      = Done (Hyper (VNum S754_nan) (VNum B) (VNum l1) (VNum B)
                    (VNum S754_nan) (VNum l)) /\
    is_pos (F:=spec_float) S754_nan = false.
Proof.
  intros Ht. rewrite configurator_run by done.
  eexists _, _. split; [|reflexivity].
  replace (fdiv (of_Z 1) S754_nan) with S754_nan by reflexivity.
  replace (fmul B S754_nan) with S754_nan by (by destruct B).
  reflexivity.
Qed.

(** X11.  An infinite variance gives the precision [alpha = 0.0]; the shape
    [alpha_1] is then 0.0 for every finite positive confidence scale, and
    NaN for an infinite one. *)
Theorem infinite_variance_zero_precision (s : state (F:=spec_float)) (tau B : spec_float) :
  is_zero tau = false -> is_pos B = true ->
  exists l1 l : spec_float,
    configurator (VNum (S754_infinity false)) (VNum tau) (VNum B) s
      = Done (Hyper (VNum (if SFeqb B (S754_infinity false)
                           then S754_nan else S754_zero false))
                    (VNum B) (VNum l1) (VNum B)
                    (VNum (S754_zero false)) (VNum l)).
Proof.
  intros Ht HB. rewrite configurator_run by done.
  eexists _, _.
  replace (fdiv (of_Z 1) (S754_infinity false)) with (S754_zero false) by reflexivity.
  do 2 f_equal. f_equal.
  destruct B as [[]|[]| |[] m e]; try discriminate; reflexivity.
Qed.

(** ** Further properties of whole runs *)

Section Runs.
Context {F : Type} `{Float F}.
Implicit Types (s : state (F:=F)).

Ltac exec :=
  unfold construct, fit_model, import_as, from_import, bind, load_name,
    store_name, getattr, getitem, call, emit, ret, raise;
  cbn [globals log]; simplify_map_eq.

Ltac fresh_name :=
  rewrite !not_elem_of_cons; repeat split; (discriminate || apply not_elem_of_nil).

(** X12.  The Poisson cell run before the data cell: [sm] is imported, then
    the [add_constant] line raises NameError on [X_train]; no library call
    is made and no model is built. *)
Theorem poisson_needs_data s :
  globals s !! "X_train" = None ->
  cell_poisson s
    = (Raised (NameError "X_train"),
       State (<["sm" := VModule "statsmodels.api"]> (globals s)) (log s)).
Proof.
  intros Hx. unfold cell_poisson, cell_poisson_design. by exec.
Qed.

(** X13.  A top-to-bottom run, from any kernel in which [ridgeCV] is not
    bound, ends at the report: it leaves the kernel exactly as the first
    three cells left it, so the Bayesian and the Poisson cells have no
    effect at all. *)
Theorem notebook_halts_at_report s :
  globals s !! "ridgeCV" = None ->
  notebook s = (Raised (NameError "ridgeCV"), snd (cells_before_report s)) /\
  fst (cells_before_report s) = Done tt.
Proof.
  intros Hr.
  destruct (cells_before_report_run s) as (g & l & E & _ & _ & _ & Fr & _).
  unfold notebook. unfold bind at 1. rewrite E. cbn [fst snd].
  split; [|done]. unfold bind at 1. unfold cell_report, bind.
  rewrite print_alpha_unbound; [done| |done]. cbn [globals]. by rewrite Fr.
Qed.

Lemma cell_bayes_run s vx vy :
  globals s !! "X_train" = Some vx -> globals s !! "y_train" = Some vy ->
  exists g l,
    cell_bayes s = (Done tt, State g (log s ++ l)) /\
    List.filter is_print l = [] /\
    forall n, n ∉ ["BayesianRidge"; "bayes_model"] -> g !! n = globals s !! n.
Proof.
  intros Hx Hy. unfold cell_bayes. exec.
  eexists _, [_; _]. rewrite <- !app_assoc. split; [reflexivity|].
  split; [reflexivity|].
  intros n Hn. rewrite !not_elem_of_cons in Hn. destruct_and!. by simplify_map_eq.
Qed.

Lemma cell_poisson_run s vx vy :
  globals s !! "X_train" = Some vx -> globals s !! "y_train" = Some vy ->
  exists g l,
    cell_poisson s = (Done tt, State g (log s ++ l)) /\
    List.filter is_print l = [].
Proof.
  intros Hx Hy. unfold cell_poisson. unfold bind at 1.
  rewrite (cell_poisson_design_run s vx Hx). cbn zeta.
  rewrite (cell_poisson_fit_run _ "statsmodels.api" vx vy);
    [|cbn [globals]; by simplify_map_eq..].
  cbn zeta. cbn [globals log].
  eexists _, [_; _; _; _]. rewrite <- !app_assoc. by split.
Qed.

(** X14.  Without the report cell, no cell reads a name that the notebook
    has not bound before it: imports and library calls being taken to
    return, a run of the data, regularized, cross-validation, Bayesian and
    Poisson cells from any kernel raises no NameError, and no cell prints. *)
Theorem notebook_without_report_completes s :
  exists s',
    bind cells_before_report (fun _ => bind cell_bayes (fun _ => cell_poisson)) s
      = (Done tt, s') /\
    printed s' = printed s.
Proof.
  destruct (cell_data_run s) as (g1 & l1 & vx & vy & E1 & P1 & Hx1 & Hy1 & F1).
  destruct (cell_regularized_run (State g1 (log s ++ l1)) vx vy Hx1 Hy1)
    as (g2 & l2 & E2 & P2 & F2).
  cbn [globals log] in *.
  assert (Hx2 : g2 !! "X_train" = Some vx) by (rewrite F2; [done|fresh_name]).
  assert (Hy2 : g2 !! "y_train" = Some vy) by (rewrite F2; [done|fresh_name]).
  destruct (cell_cv_run (State g2 ((log s ++ l1) ++ l2)) vx vy Hx2 Hy2)
    as (g3 & l3 & E3 & P3 & _ & _ & F3).
  cbn [globals log] in *.
  assert (Hx3 : g3 !! "X_train" = Some vx) by (rewrite F3; [done|fresh_name]).
  assert (Hy3 : g3 !! "y_train" = Some vy) by (rewrite F3; [done|fresh_name]).
  destruct (cell_bayes_run (State g3 (((log s ++ l1) ++ l2) ++ l3)) vx vy Hx3 Hy3)
    as (g4 & l4 & E4 & P4 & F4).
  cbn [globals log] in *.
  assert (Hx4 : g4 !! "X_train" = Some vx) by (rewrite F4; [done|fresh_name]).
  assert (Hy4 : g4 !! "y_train" = Some vy) by (rewrite F4; [done|fresh_name]).
  destruct (cell_poisson_run (State g4 ((((log s ++ l1) ++ l2) ++ l3) ++ l4)) vx vy Hx4 Hy4)
    as (g5 & l5 & E5 & P5).
  cbn [globals log] in *.
  eexists. split.
  { unfold cells_before_report, bind. rewrite E1, E2, E3, E4, E5. reflexivity. }
  unfold printed. cbn [log].
  by rewrite !List.filter_app, P1, P2, P3, P4, P5, !app_nil_r.
Qed.

End Runs.

(** ** The further properties at concrete kernels *)

Lemma data_cell_loads_once_witness :
  let load := VAttr (VAttr (VModule "sklearn") "datasets") "load_boston" in
  exists g : gmap string (value (F:=spec_float)),
    cell_data fresh = (Done tt, State g [ECall load [] []]) /\
    g !! "alpha" = None.
Proof.
  destruct (data_cell_loads_once (F:=spec_float) fresh) as (g & E & _ & _ & _ & Fr).
  exists g. split; [exact E|].
  rewrite Fr; [reflexivity|]. apply (bool_decide_unpack _). vm_compute. exact I.
Defined.

Lemma regularized_needs_data_witness :
  let ridge := VAttr (VModule "sklearn.linear_model") "Ridge" in
  let penalty := [("alpha", VNum (F:=spec_float) (of_Z 1))] in
  exists g,
    cell_regularized fresh
      = (Raised (NameError "X_train"), State g (log fresh ++ [ECall ridge [] penalty])) /\
    g !! "ridge_model" = Some (VCall ridge [] penalty) /\
    g !! "lasso_model" = globals fresh !! "lasso_model".
Proof.
  apply (regularized_needs_data (F:=spec_float) fresh). vm_compute; reflexivity.
Defined.

Lemma regularized_same_penalty_same_data_witness :
  let s : state (F:=spec_float) := snd (cell_data fresh) in
  let boston :=
    VCall (VAttr (VAttr (VModule "sklearn") "datasets") "load_boston") [] [] in
  let vx := VItem boston (VStr "data") in
  let vy := VItem boston (VStr "target") in
  let ridge := VAttr (VModule "sklearn.linear_model") "Ridge" in
  let lasso := VAttr (VModule "sklearn.linear_model") "Lasso" in
  let penalty := [("alpha", VNum (of_Z 1))] in
  exists g,
    cell_regularized s
      = (Done tt,
         State g (log s ++ [ECall ridge [] penalty;
                            ECall (VAttr (VCall ridge [] penalty) "fit") [vx; vy] [];
                            ECall lasso [] penalty;
                            ECall (VAttr (VCall lasso [] penalty) "fit") [vx; vy] []])) /\
    g !! "ridge_model" = Some (VCall ridge [] penalty) /\
    g !! "lasso_model" = Some (VCall lasso [] penalty) /\
    g !! "X_train" = Some vx /\ g !! "y_train" = Some vy.
Proof.
  apply (regularized_same_penalty_same_data (F:=spec_float) (snd (cell_data fresh)));
    vm_compute; reflexivity.
Defined.

Lemma cv_same_grid_same_data_witness :
  let s : state (F:=spec_float) := snd (cell_data fresh) in
  let boston :=
    VCall (VAttr (VAttr (VModule "sklearn") "datasets") "load_boston") [] [] in
  let vx := VItem boston (VStr "data") in
  let vy := VItem boston (VStr "target") in
  let ridgeCV := VAttr (VModule "sklearn.linear_model") "RidgeCV" in
  let lassoCV := VAttr (VModule "sklearn.linear_model") "LassoCV" in
  let grid := [("alphas", VList [VNum (of_Q (1 # 100)); VNum (of_Z 1); VNum (of_Z 100)])] in
  exists g,
    cell_cv s
      = (Done tt,
         State g (log s ++ [ECall ridgeCV [] grid;
                            ECall (VAttr (VCall ridgeCV [] grid) "fit") [vx; vy] [];
                            ECall lassoCV [] grid;
                            ECall (VAttr (VCall lassoCV [] grid) "fit") [vx; vy] []])) /\
    g !! "ridgeCV_model" = Some (VCall ridgeCV [] grid) /\
    g !! "lassoCV_model" = Some (VCall lassoCV [] grid) /\
    g !! "ridgeCV" = globals s !! "ridgeCV" /\
    g !! "lassoCV" = globals s !! "lassoCV".
Proof.
  apply (cv_same_grid_same_data (F:=spec_float) (snd (cell_data fresh)));
    vm_compute; reflexivity.
Defined.



Lemma fixed_block_needs_estimator_witness :
  fixed_precision_block (F:=spec_float) sigma2_lit tau_lit big_number_lit fresh
    = (Raised (NameError "BayesianRidge"),
       snd (hyperparameters sigma2_lit tau_lit big_number_lit fresh)) /\
  log (snd (hyperparameters (F:=spec_float) sigma2_lit tau_lit big_number_lit fresh))
    = log fresh /\
  is_Some (read_hyper (globals (snd (hyperparameters (F:=spec_float) sigma2_lit tau_lit
                                       big_number_lit fresh)))).
Proof.
  apply (fixed_block_needs_estimator (F:=spec_float) fresh
           (of_Q (118 # 10)) (of_Z 10) (of_Z (10 ^ 5)));
    vm_compute; reflexivity.
Defined.

Lemma block_replaces_default_model_witness :
  let s : state (F:=spec_float) := snd (cell_data fresh) in
  let estimator := VAttr (VModule "sklearn.linear_model") "BayesianRidge" in
  exists g kwargs,
    fst (bind cell_bayes (fun _ => cell_bayes_fixed) s) = Done tt /\
    globals (snd (bind cell_bayes (fun _ => cell_bayes_fixed) s)) = g /\
    g !! "bayes_model" = Some (VCall estimator [] kwargs) /\
    VCall estimator [] kwargs <> VCall estimator [] [].
Proof.
  intros s estimator.
  destruct (block_replaces_default_model (F:=spec_float) s
              (of_Q (118 # 10)) (of_Z 10) (of_Z (10 ^ 5))
              (VItem (VCall (VAttr (VAttr (VModule "sklearn") "datasets") "load_boston")
                            [] []) (VStr "data"))
              (VItem (VCall (VAttr (VAttr (VModule "sklearn") "datasets") "load_boston")
                            [] []) (VStr "target")))
    as (g & E & Hb & Hne); try (vm_compute; reflexivity).
  exists g. eexists. unfold cell_bayes_fixed, sigma2_lit, tau_lit, big_number_lit.
  rewrite E. cbn [fst snd globals]. split; [reflexivity|]. split; [reflexivity|].
  split; [exact Hb|exact Hne].
Defined.

Lemma hyperparameters_idempotent_witness :
  bind (hyperparameters (F:=spec_float) sigma2_lit tau_lit big_number_lit)
       (fun _ => hyperparameters sigma2_lit tau_lit big_number_lit) before_fixed_block
  = hyperparameters sigma2_lit tau_lit big_number_lit before_fixed_block.
Proof.
  apply (hyperparameters_idempotent (F:=spec_float) before_fixed_block
           (of_Q (118 # 10)) (of_Z 10) (of_Z (10 ^ 5)));
    vm_compute; reflexivity.
Defined.

Lemma nan_variance_propagates_witness :
  exists l1 l : spec_float,
    configurator (VNum S754_nan) tau_lit big_number_lit fresh
      = Done (Hyper (VNum S754_nan) big_number_lit (VNum l1) big_number_lit
                    (VNum S754_nan) (VNum l)) /\
    is_pos (F:=spec_float) S754_nan = false.
Proof.
  apply (nan_variance_propagates fresh (of_Z 10) (of_Z (10 ^ 5))).
  vm_compute; reflexivity.
Defined.

Lemma infinite_variance_zero_precision_witness :
  exists l1 l : spec_float,
    configurator (VNum (S754_infinity false)) tau_lit big_number_lit fresh
      = Done (Hyper (VNum (S754_zero false)) big_number_lit (VNum l1) big_number_lit
                    (VNum (S754_zero false)) (VNum l)).
Proof.
  refine (infinite_variance_zero_precision fresh (of_Z 10) (of_Z (10 ^ 5)) _ _);
    vm_compute; reflexivity.
Defined.

Lemma poisson_needs_data_witness :
  cell_poisson (F:=spec_float) fresh
    = (Raised (NameError "X_train"),
       State (<["sm" := VModule "statsmodels.api"]> (globals fresh)) (log fresh)).
Proof.
  apply (poisson_needs_data (F:=spec_float) fresh). vm_compute; reflexivity.
Defined.

Lemma notebook_halts_at_report_witness :
  notebook (F:=spec_float) fresh
    = (Raised (NameError "ridgeCV"), snd (cells_before_report fresh)) /\
  fst (cells_before_report (F:=spec_float) fresh) = Done tt.
Proof.
  apply (notebook_halts_at_report (F:=spec_float) fresh). vm_compute; reflexivity.
Defined.

(** ** Binary64: the error of one rounding *)

Section ShiftRight.
Local Open Scope Z_scope.


Lemma shr_1_inbetween mrs N D :
  0 < D -> 0 <= shr_m mrs -> inbetween mrs N D ->
  inbetween (shr_1 mrs) N (2 * D) /\ 0 <= shr_m (shr_1 mrs).
Proof.
  destruct mrs as [m r s]. unfold inbetween. cbn [shr_m shr_r shr_s].
  intros HD Hm Hin.
  destruct m as [|p|p]; [| |now elim Hm].
  - destruct r, s; cbn [shr_1 shr_m shr_r shr_s orb] in *; lia.
  - destruct p as [p|p|]; destruct r, s; cbn [shr_1 shr_m shr_r shr_s orb] in *;
      try (change (Zpos p~1) with (2 * Zpos p + 1) in * );
      try (change (Zpos p~0) with (2 * Zpos p) in * );
      try (assert (0 < Zpos p) by lia; generalize dependent (Zpos p); intros P; intros);
      lia.
Qed.

Lemma iter_shr_1_inbetween p : forall mrs N D,
  0 < D -> 0 <= shr_m mrs -> inbetween mrs N D ->
  inbetween (iter_pos shr_1 p mrs) N (2 ^ Zpos p * D) /\
  0 <= shr_m (iter_pos shr_1 p mrs).
Proof.
  induction p as [p IH|p IH|]; intros mrs N D HD Hm Hin; cbn [iter_pos].
  - destruct (shr_1_inbetween mrs N D HD Hm Hin) as [H1 M1].
    destruct (IH _ N (2 * D) ltac:(lia) M1 H1) as [H2 M2].
    assert (P : 0 < 2 ^ Zpos p) by (apply Z.pow_pos_nonneg; lia).
    destruct (IH _ N (2 ^ Zpos p * (2 * D)) ltac:(nia) M2 H2) as [H3 M3].
    split; [|exact M3].
    replace (2 ^ Zpos p~1 * D) with (2 ^ Zpos p * (2 ^ Zpos p * (2 * D))); [exact H3|].
    change (Zpos p~1) with (2 * Zpos p + 1).
    replace (2 * Zpos p + 1) with (Zpos p + Zpos p + 1) by lia.
    rewrite !Z.pow_add_r by lia. change (2 ^ 1) with 2. ring.
  - assert (P : 0 < 2 ^ Zpos p) by (apply Z.pow_pos_nonneg; lia).
    destruct (IH _ N D HD Hm Hin) as [H2 M2].
    destruct (IH _ N (2 ^ Zpos p * D) ltac:(nia) M2 H2) as [H3 M3].
    split; [|exact M3].
    replace (2 ^ Zpos p~0 * D) with (2 ^ Zpos p * (2 ^ Zpos p * D)); [exact H3|].
    change (Zpos p~0) with (2 * Zpos p).
    replace (2 * Zpos p) with (Zpos p + Zpos p) by lia.
    rewrite Z.pow_add_r by lia. ring.
  - change (2 ^ 1) with 2. apply shr_1_inbetween; assumption.
Qed.

Lemma shr_inbetween mrs e n N D :
  0 < D -> 0 <= shr_m mrs -> inbetween mrs N D ->
  exists k, 0 <= k /\ snd (shr mrs e n) = e + k /\
            inbetween (fst (shr mrs e n)) N (2 ^ k * D) /\
            0 <= shr_m (fst (shr mrs e n)).
Proof.
  intros HD Hm Hin. destruct n as [|p|p]; cbn [shr fst snd].
  - exists 0. rewrite Z.pow_0_r, Z.mul_1_l, Z.add_0_r. auto with zarith.
  - exists (Zpos p). destruct (iter_shr_1_inbetween p mrs N D HD Hm Hin).
    repeat split; auto with zarith.
  - exists 0. rewrite Z.pow_0_r, Z.mul_1_l, Z.add_0_r. auto with zarith.
Qed.

Lemma inbetween_bounds mrs N D :
  0 < D -> inbetween mrs N D ->
  shr_m mrs * D <= N < (shr_m mrs + 1) * D.
Proof.
  destruct mrs as [m r s]. unfold inbetween. cbn [shr_m shr_r shr_s].
  intros HD Hin. set (X := m * D) in *.
  replace ((m + 1) * D) with (X + D) by (unfold X; ring).
  replace ((2 * m + 1) * D) with (2 * X + D) in Hin by (unfold X; ring).
  destruct r, s; lia.
Qed.

Lemma round_nearest_even_error mrs N D :
  0 < D -> 0 <= shr_m mrs -> inbetween mrs N D ->
  let M1 := round_nearest_even (shr_m mrs) (loc_of_shr_record mrs) in
  0 <= M1 /\ 2 * (M1 * D) - D <= 2 * N <= 2 * (M1 * D) + D.
Proof.
  destruct mrs as [m r s]. unfold inbetween. cbn [shr_m shr_r shr_s].
  intros HD Hm Hin. set (X := m * D) in *.
  replace ((m + 1) * D) with (X + D) in Hin by (unfold X; ring).
  replace ((2 * m + 1) * D) with (2 * X + D) in Hin by (unfold X; ring).
  destruct r, s; cbn [loc_of_shr_record round_nearest_even];
    try destruct (Z.even m);
    try (replace ((m + 1) * D) with (X + D) by (unfold X; ring));
    fold X; lia.
Qed.

Lemma record_of_loc_exact M N : N = M -> inbetween (shr_record_of_loc M loc_Exact) N 1.
Proof. intros ->. unfold inbetween. cbn. ring. Qed.

Lemma binary_round_aux_error s M E l N D s' m e :
  0 < D -> 0 <= M -> inbetween (shr_record_of_loc M l) N D ->
  binary_round_aux prec emax s M E l = S754_finite s' m e ->
  exists k, 0 <= k /\ e = E + k /\ s' = s /\
    2 * (Zpos m * 2 ^ k * D) - 3 * (2 ^ k * D) <= 2 * N
      <= 2 * (Zpos m * 2 ^ k * D) + 3 * (2 ^ k * D).
Proof.
  intros HD HM Hin. unfold binary_round_aux, shr_fexp.
  set (n1 := fexp prec emax (Zdigits2 M + E) - E). clearbody n1.
  assert (HM0 : 0 <= shr_m (shr_record_of_loc M l))
    by (destruct l as [|[]]; exact HM).
  destruct (shr_inbetween _ E n1 N D HD HM0 Hin) as (k1 & Hk1 & He1 & Hin1 & Hm1).
  destruct (shr (shr_record_of_loc M l) E n1) as [mrs1 e1]. cbn [fst snd] in *.
  assert (HD1 : 0 < 2 ^ k1 * D) by (apply Z.mul_pos_pos; [apply Z.pow_pos_nonneg|]; lia).
  destruct (round_nearest_even_error mrs1 N _ HD1 Hm1 Hin1) as [HM1 Herr].
  set (M1 := round_nearest_even (shr_m mrs1) (loc_of_shr_record mrs1)) in *.
  clearbody M1.
  set (n2 := fexp prec emax (Zdigits2 M1 + e1) - e1). clearbody n2.
  assert (HM1' : 0 <= shr_m (shr_record_of_loc M1 loc_Exact)) by exact HM1.
  destruct (shr_inbetween _ e1 n2 M1 1 ltac:(lia) HM1' (record_of_loc_exact M1 M1 eq_refl))
    as (k2 & Hk2 & He2 & Hin2 & Hm2).
  destruct (shr (shr_record_of_loc M1 loc_Exact) e1 n2) as [mrs2 e2].
  cbn [fst snd] in *.
  assert (HK2 : 0 < 2 ^ k2) by (apply Z.pow_pos_nonneg; lia).
  rewrite Z.mul_1_r in Hin2.
  pose proof (inbetween_bounds mrs2 M1 _ HK2 Hin2) as Hb.
  destruct (shr_m mrs2) as [|m2|m2]; try discriminate.
  destruct (e2 <=? emax - prec); try discriminate.
  intros [= -> -> ->].
  exists (k1 + k2). split; [lia|]. split; [lia|]. split; [reflexivity|].
  rewrite Z.pow_add_r by lia.
  set (K2 := 2 ^ k2) in *. set (D1 := 2 ^ k1 * D) in *.
  replace (Zpos m * (2 ^ k1 * K2) * D) with ((Zpos m * K2) * D1) by (unfold D1; ring).
  replace (2 ^ k1 * K2 * D) with (K2 * D1) by (unfold D1; ring).
  set (a := Zpos m * K2) in *.
  replace ((Zpos m + 1) * K2) with (a + K2) in Hb by (unfold a; ring).
  assert (A1 : a * D1 <= M1 * D1) by (apply Z.mul_le_mono_nonneg_r; lia).
  assert (A2 : M1 * D1 + D1 <= (a + K2) * D1).
  { replace (M1 * D1 + D1) with ((M1 + 1) * D1) by ring.
    apply Z.mul_le_mono_nonneg_r; lia. }
  replace ((a + K2) * D1) with (a * D1 + K2 * D1) in A2 by ring.
  assert (A3 : D1 <= K2 * D1).
  { replace D1 with (1 * D1) at 1 by ring. apply Z.mul_le_mono_nonneg_r; lia. }
  lia.
Qed.


End ShiftRight.

Section Relative.
Local Open Scope Q_scope.

Lemma rel_from_ulp (M K P NN : Q) :
  inject_Z (2 ^ 52) <= M -> 0 < K -> 0 < P ->
  2 * (M * K) - 3 * K <= 2 * NN <= 2 * (M * K) + 3 * K ->
  M * (P * K) * (1 - u64) <= NN * P <= M * (P * K) * (1 + u64).
Proof.
  intros HM HK HP [Hlo Hhi].
  assert (H3 : 3 * K <= 2 * u64 * (M * K)).
  { assert (H : 0 <= (2 * u64 * M - 3) * K).
    { apply Qmult_le_0_compat; [|lra].
      unfold u64. change (inject_Z (2 ^ 52)) with (4503599627370496 # 1) in HM.
      change (3 # 2 ^ 53) with (3 # 9007199254740992). lra. }
    lra. }
  assert (A : (M * K) * (1 - u64) <= NN <= (M * K) * (1 + u64)) by lra.
  destruct A as [A1 A2].
  apply (Qmult_le_compat_r _ _ P) in A1; [|lra].
  apply (Qmult_le_compat_r _ _ P) in A2; [|lra].
  split; lra.
Qed.

Lemma pow2_pos (e : Z) : 0 < 2 ^ e.
Proof. apply Qpower_0_lt. reflexivity. Qed.

Lemma pow2_split (E k : Z) : (0 <= k)%Z -> 2 ^ (E + k) == 2 ^ E * inject_Z (2 ^ k).
Proof.
  intros Hk. rewrite Qpower_plus by discriminate.
  rewrite Zpower_Qpower by assumption. reflexivity.
Qed.

Lemma pow2_Z_pos (k : Z) : (0 <= k)%Z -> 0 < inject_Z (2 ^ k).
Proof.
  intros Hk. rewrite Zpower_Qpower by assumption. apply pow2_pos.
Qed.

Lemma b64_val_pos_finite x : b64_pos_finite x = true -> 0 < b64_val x.
Proof.
  destruct x as [| | |[] m e]; try discriminate. intros _.
  unfold b64_val, b64_to_Q.
  apply Qmult_lt_0_compat; [reflexivity|apply pow2_pos].
Qed.

(** What [binary_round_aux] returns, as a rational, against the exact value
    [N/D * 2^E] it rounds, in multiplicative form. *)
Lemma round_aux_rel s M E l N D r :
  (0 < D)%Z -> (0 <= M)%Z -> inbetween (shr_record_of_loc M l) N D ->
  binary_round_aux prec emax s M E l = r -> b64_pos_normal r = true ->
  b64_val r * inject_Z D * (1 - u64) <= inject_Z N * 2 ^ E
    <= b64_val r * inject_Z D * (1 + u64).
Proof.
  intros HD HM Hin Hr Hn.
  destruct r as [| | |[] m e]; try discriminate. cbn [b64_pos_normal] in Hn.
  apply Z.leb_le in Hn.
  destruct (binary_round_aux_error s M E l N D _ m e HD HM Hin Hr)
    as (k & Hk & -> & _ & Hlo & Hhi).
  unfold b64_val, b64_to_Q.
  rewrite pow2_split by assumption.
  pose proof (pow2_Z_pos k Hk) as HK. pose proof (pow2_pos E) as HP.
  assert (HDq : 0 < inject_Z D) by (change 0 with (inject_Z 0); rewrite <- Zlt_Qlt; assumption).
  rewrite Zle_Qle in Hn, Hlo, Hhi.
  rewrite !inject_Z_plus, !inject_Z_mult in Hhi.
  unfold Z.sub in Hlo. rewrite !inject_Z_plus, inject_Z_opp, !inject_Z_mult in Hlo.
  set (Mq := inject_Z (Zpos m)) in *. set (K := inject_Z (2 ^ k)) in *.
  set (P := 2 ^ E) in *. set (Dq := inject_Z D) in *. set (Nq := inject_Z N) in *.
  change (inject_Z 2) with 2 in *. change (inject_Z 3) with 3 in *.
  assert (HKD : 0 < K * Dq) by (apply Qmult_lt_0_compat; assumption).
  destruct (rel_from_ulp Mq (K * Dq) P Nq Hn HKD HP) as [R1 R2].
  { split; lra. }
  split; lra.
Qed.

End Relative.

Section Division.
Local Open Scope Z_scope.

Lemma new_location_inbetween q r d :
  0 < d -> 0 <= r < d ->
  inbetween (shr_record_of_loc q (new_location d r)) (q * d + r) d.
Proof.
  intros Hd Hr. unfold new_location, new_location_even, new_location_odd.
  set (X := q * d).
  assert (EX : forall l, inbetween (shr_record_of_loc q l) (X + r) d <->
    match l with
    | loc_Exact => r = 0
    | loc_Inexact Lt => 0 < r /\ 2 * r < d
    | loc_Inexact Eq => 2 * r = d
    | loc_Inexact Gt => d < 2 * r
    end).
  { intros l. unfold inbetween.
    destruct l as [|[]]; cbn [shr_record_of_loc shr_m shr_r shr_s]; fold X;
      replace ((2 * q + 1) * d) with (2 * X + d) by (unfold X; ring);
      replace ((q + 1) * d) with (X + d) by (unfold X; ring); lia. }
  destruct (Z.even d) eqn:Ev.
  - destruct (r =? 0) eqn:R0; apply EX.
    + apply Z.eqb_eq in R0. exact R0.
    + apply Z.eqb_neq in R0. destruct (Z.compare_spec (2 * r) d); lia.
  - assert (Hodd : Z.odd d = true) by (rewrite <- Z.negb_even, Ev; reflexivity).
    apply Z.odd_spec in Hodd. destruct Hodd as [j Hj].
    destruct (r =? 0) eqn:R0; apply EX.
    + apply Z.eqb_eq in R0. exact R0.
    + apply Z.eqb_neq in R0. destruct (Z.compare_spec (2 * r + 1) d); lia.
Qed.

Lemma SFdiv_core_binary_spec mx ex my ey q e' l :
  SFdiv_core_binary prec emax (Zpos mx) ex (Zpos my) ey = (q, e', l) ->
  exists s0, 0 <= s0 /\ ex - ey = e' + s0 /\ 0 <= q /\
    inbetween (shr_record_of_loc q l) (Zpos mx * 2 ^ s0) (Zpos my).
Proof.
  unfold SFdiv_core_binary.
  set (f := fexp prec emax (Zdigits2 (Zpos mx) + ex - (Zdigits2 (Zpos my) + ey))).
  clearbody f.
  set (e0 := Z.min f (ex - ey)).
  assert (He0 : e0 <= ex - ey) by apply Z.le_min_r.
  clearbody e0.
  set (s := ex - ey - e0).
  assert (Hs : 0 <= s) by (unfold s; lia).
  assert (Hm' : match s with
                | Zpos _ => Z.shiftl (Zpos mx) s
                | 0 => Zpos mx
                | Zneg _ => 0
                end = Zpos mx * 2 ^ s).
  { destruct s as [|p|p] eqn:Es.
    - rewrite Z.pow_0_r. ring.
    - rewrite Z.shiftl_mul_pow2 by lia. reflexivity.
    - lia. }
  rewrite Hm'. clear Hm'.
  assert (Hpos : 0 <= Zpos mx * 2 ^ s).
  { apply Z.mul_nonneg_nonneg; [lia|]. apply Z.pow_nonneg. lia. }
  pose proof (Z_div_mod (Zpos mx * 2 ^ s) (Zpos my) ltac:(lia)) as Hdm.
  destruct (Z.div_eucl (Zpos mx * 2 ^ s) (Zpos my)) as [q0 r0].
  destruct Hdm as [Heq Hr0].
  intros [= <- <- <-].
  exists s. split; [exact Hs|]. split; [unfold s; lia|].
  split.
  - destruct (Z.le_gt_cases 0 q0) as [|Hneg]; [assumption|].
    assert (Zpos my * q0 <= Zpos my * (-1)) by (apply Z.mul_le_mono_nonneg_l; lia).
    lia.
  - rewrite Heq. replace (Zpos my * q0 + r0) with (q0 * Zpos my + r0) by ring.
    apply new_location_inbetween; lia.
Qed.

End Division.

Section Operations.
Local Open Scope Q_scope.

Lemma b64_val_finite m e :
  b64_val (S754_finite false m e) = inject_Z (Zpos m) * 2 ^ e.
Proof. reflexivity. Qed.

(** A product that comes out normal is within [u64] of the exact product,
    relative to the result. *)
Lemma SFmul_rel x y :
  b64_pos_finite x = true -> b64_pos_finite y = true ->
  b64_pos_normal (SFmul prec emax x y) = true ->
  b64_val (SFmul prec emax x y) * (1 - u64) <= b64_val x * b64_val y
    <= b64_val (SFmul prec emax x y) * (1 + u64).
Proof.
  destruct x as [| | |[] mx ex]; try discriminate.
  destruct y as [| | |[] my ey]; try discriminate.
  intros _ _ Hn. cbn [SFmul xorb] in *.
  pose proof (round_aux_rel false (Zpos (mx * my)) (ex + ey) loc_Exact
                (Zpos (mx * my)) 1 _ ltac:(lia) ltac:(lia)
                (record_of_loc_exact _ _ eq_refl) eq_refl Hn) as [R1 R2].
  rewrite !b64_val_finite.
  assert (E : inject_Z (Zpos mx) * 2 ^ ex * (inject_Z (Zpos my) * 2 ^ ey)
              == inject_Z (Zpos (mx * my)) * 2 ^ (ex + ey)).
  { rewrite Qpower_plus by discriminate. rewrite Pos2Z.inj_mul, inject_Z_mult. ring. }
  rewrite E. change (inject_Z 1) with 1 in *. split; lra.
Qed.

(** A quotient that comes out normal, times the divisor, is within [u64] of
    the dividend, relative to the result. *)
Lemma SFdiv_rel x y :
  b64_pos_finite x = true -> b64_pos_finite y = true ->
  b64_pos_normal (SFdiv prec emax x y) = true ->
  b64_val (SFdiv prec emax x y) * b64_val y * (1 - u64) <= b64_val x
    <= b64_val (SFdiv prec emax x y) * b64_val y * (1 + u64).
Proof.
  destruct x as [| | |[] mx ex]; try discriminate.
  destruct y as [| | |[] my ey]; try discriminate.
  intros _ _ Hn. cbn [SFdiv xorb] in *.
  destruct (SFdiv_core_binary prec emax (Zpos mx) ex (Zpos my) ey) as [[q e'] l] eqn:Ec.
  destruct (SFdiv_core_binary_spec _ _ _ _ _ _ _ Ec) as (s0 & Hs0 & He & Hq & Hin).
  pose proof (round_aux_rel false q e' l (Zpos mx * 2 ^ s0)%Z (Zpos my) _
                eq_refl Hq Hin eq_refl Hn) as [R1 R2].
  set (r := b64_val (binary_round_aux prec emax false q e' l)) in *.
  rewrite !b64_val_finite.
  assert (Ex : inject_Z (Zpos mx) * 2 ^ ex
               == inject_Z (Zpos mx * 2 ^ s0) * 2 ^ e' * 2 ^ ey).
  { replace ex with (s0 + e' + ey)%Z by lia.
    rewrite !Qpower_plus by discriminate.
    rewrite inject_Z_mult, Zpower_Qpower by assumption.
    change (inject_Z 2) with 2. ring. }
  rewrite Ex.
  pose proof (pow2_pos ey) as Py.
  apply (Qmult_le_compat_r _ _ (2 ^ ey)) in R1; [|lra].
  apply (Qmult_le_compat_r _ _ (2 ^ ey)) in R2; [|lra].
  split; lra.
Qed.

Lemma u64_eq : u64 == 3 # 9007199254740992.
Proof. reflexivity. Qed.

(** Two roundings: [a1] is the rounded product [B * al] and [q] the rounded
    quotient [a1 / B]; then [q] is [al] up to [eps_mean]. *)
Lemma quotient_of_product_close (B al a1 q : Q) :
  0 < B -> 0 < q ->
  a1 * (1 - u64) <= B * al <= a1 * (1 + u64) ->
  q * B * (1 - u64) <= a1 <= q * B * (1 + u64) ->
  Qabs (q - al) <= eps_mean * al.
Proof.
  intros HB Hq [M1 M2] [D1 D2].
  assert (HX : 0 < q * B) by (apply Qmult_lt_0_compat; assumption).
  rewrite u64_eq in *. unfold eps_mean.
  change (1 # 2 ^ 50) with (1 # 1125899906842624).
  apply Qabs_Qle_condition. split.
  - apply (Qmult_le_r _ _ B HB). lra.
  - apply (Qmult_le_r _ _ B HB). lra.
Qed.

(** Three roundings per run: [a] the rounded [B * al], [S] the rounded
    [B * B], [v] the rounded [a / S].  Scales a factor [1 + eta_scale] apart
    give strictly ordered results. *)
Lemma variance_core (al B1 B2 a1 a2 S1 S2 v1 v2 : Q) :
  0 < al -> 0 < B1 -> 0 < B2 -> 0 < v1 -> 0 < v2 ->
  B1 * (1 + eta_scale) <= B2 ->
  a1 * (1 - u64) <= B1 * al <= a1 * (1 + u64) ->
  a2 * (1 - u64) <= B2 * al <= a2 * (1 + u64) ->
  S1 * (1 - u64) <= B1 * B1 <= S1 * (1 + u64) ->
  S2 * (1 - u64) <= B2 * B2 <= S2 * (1 + u64) ->
  v1 * S1 * (1 - u64) <= a1 <= v1 * S1 * (1 + u64) ->
  v2 * S2 * (1 - u64) <= a2 <= v2 * S2 * (1 + u64) ->
  v2 < v1.
Proof.
  intros Hal HB1 HB2 Hv1 Hv2 Hsep [A1l A1h] [A2l A2h] [S1l S1h] [S2l S2h]
    [V1l V1h] [V2l V2h].
  rewrite u64_eq in *. unfold eta_scale in *.
  change (1 # 2 ^ 48) with (1 # 281474976710656) in *.
  (* the larger scale: an upper bound on v2 * B2 *)
  assert (E2 : v2 * (B2 * B2) <= v2 * (S2 * (1 + (3 # 9007199254740992)))).
  { apply Qmult_le_l; assumption. }
  assert (W2 : (v2 * B2) * ((1 - (3 # 9007199254740992)) * (1 - (3 # 9007199254740992)))
               <= al * (1 + (3 # 9007199254740992))).
  { apply (Qmult_le_l _ _ B2 HB2). lra. }
  (* the smaller scale: a lower bound on v1 * B1 *)
  assert (E1 : v1 * (S1 * (1 - (3 # 9007199254740992))) <= v1 * (B1 * B1)).
  { apply Qmult_le_l; assumption. }
  assert (W1 : al * (1 - (3 # 9007199254740992))
               <= (v1 * B1) * ((1 + (3 # 9007199254740992)) * (1 + (3 # 9007199254740992)))).
  { apply (Qmult_le_l _ _ B1 HB1). lra. }
  (* the separation of the scales *)
  assert (E3 : v2 * (B1 * (1 + (1 # 281474976710656))) <= v2 * B2).
  { apply Qmult_le_l; assumption. }
  apply (Qmult_lt_l _ _ B1 HB1).
  assert (P1 : 0 < v1 * B1) by (apply Qmult_lt_0_compat; assumption).
  assert (P2 : 0 < v2 * B1) by (apply Qmult_lt_0_compat; assumption).
  lra.
Qed.


End Operations.

(** ** Binary64: the two invariants of the hyperpriors, as the script computes *)

Section Binary64Invariants.
Local Open Scope Q_scope.
Implicit Types (s : state (F:=spec_float)) (x y : spec_float).

Lemma b64_pos_finite_nonzero x : b64_pos_finite x = true -> is_zero x = false.
Proof. by destruct x as [| | |[] m e]. Qed.

Lemma b64_pos_normal_finite x : b64_pos_normal x = true -> b64_pos_finite x = true.
Proof. by destruct x as [| | |[] m e]. Qed.

Lemma fmul_rel x y :
  b64_pos_finite x = true -> b64_pos_finite y = true ->
  b64_pos_normal (fmul x y) = true ->
  b64_val (fmul x y) * (1 - u64) <= b64_val x * b64_val y
    <= b64_val (fmul x y) * (1 + u64).
Proof. apply SFmul_rel. Qed.

Lemma fdiv_rel x y :
  b64_pos_finite x = true -> b64_pos_finite y = true ->
  b64_pos_normal (fdiv x y) = true ->
  b64_val (fdiv x y) * b64_val y * (1 - u64) <= b64_val x
    <= b64_val (fdiv x y) * b64_val y * (1 + u64).
Proof. apply SFdiv_rel. Qed.

(** The quotient of a shape [B * p] by its rate [B] gives back [p] up to
    [eps_mean]. *)
Lemma b64_mean_close (B p : spec_float) :
  b64_pos_finite B = true -> b64_pos_finite p = true ->
  b64_pos_normal (fmul B p) = true ->
  b64_pos_normal (b64_mean (fmul B p) B) = true ->
  Qabs (b64_val (b64_mean (fmul B p) B) - b64_val p) <= eps_mean * b64_val p.
Proof.
  intros HB Hp Hn Hq. unfold b64_mean in *.
  apply (quotient_of_product_close (b64_val B) _ (b64_val (fmul B p))).
  - by apply b64_val_pos_finite.
  - by apply b64_val_pos_finite, b64_pos_normal_finite.
  - by apply fmul_rel.
  - apply fdiv_rel; [by apply b64_pos_normal_finite|done..].
Qed.

(** The variance [B * p / B^2], computed at two scales a factor
    [1 + eta_scale] apart. *)
Lemma b64_variance_decreasing (B1 B2 p : spec_float) :
  b64_pos_finite B1 = true -> b64_pos_finite B2 = true -> b64_pos_finite p = true ->
  b64_val B1 * (1 + eta_scale) <= b64_val B2 ->
  b64_pos_normal (fmul B1 p) = true -> b64_pos_normal (fmul B2 p) = true ->
  b64_pos_normal (fmul B1 B1) = true -> b64_pos_normal (fmul B2 B2) = true ->
  b64_pos_normal (b64_variance (fmul B1 p) B1) = true ->
  b64_pos_normal (b64_variance (fmul B2 p) B2) = true ->
  b64_val (b64_variance (fmul B2 p) B2) < b64_val (b64_variance (fmul B1 p) B1).
Proof.
  intros HB1 HB2 Hp Hsep Ha1 Ha2 HS1 HS2 Hv1 Hv2. unfold b64_variance in *.
  apply (variance_core (b64_val p) (b64_val B1) (b64_val B2)
           (b64_val (fmul B1 p)) (b64_val (fmul B2 p))
           (b64_val (fmul B1 B1)) (b64_val (fmul B2 B2))).
  - by apply b64_val_pos_finite.
  - by apply b64_val_pos_finite.
  - by apply b64_val_pos_finite.
  - by apply b64_val_pos_finite, b64_pos_normal_finite.
  - by apply b64_val_pos_finite, b64_pos_normal_finite.
  - exact Hsep.
  - by apply fmul_rel.
  - by apply fmul_rel.
  - by apply fmul_rel.
  - by apply fmul_rel.
  - apply fdiv_rel; [by apply b64_pos_normal_finite..|done].
  - apply fdiv_rel; [by apply b64_pos_normal_finite..|done].
Qed.

(** C1, as amended (mean preservation).  For finite strictly positive
    [sigma2], [tau] and [confidence_scale], in the binary64 arithmetic of
    the script, the quotient [alpha_1 / alpha_2] agrees with [1/sigma2]
    (the computed [alpha]) to a relative error of at most 2^-50, and
    [lambda_1 / lambda_2] with [1/tau], whatever the confidence scale,
    whenever the precision is finite and the shape and the quotient are
    normal numbers, that is, when nothing overflows or underflows. *)
Theorem mean_preserved_up_to_rounding s (sigma2 tau confidence_scale : spec_float) :
  b64_pos_finite sigma2 = true -> b64_pos_finite tau = true ->
  b64_pos_finite confidence_scale = true ->
  let a := fdiv (of_Z 1) sigma2 in
  let l := fdiv (of_Z 1) tau in
  let a1 := fmul confidence_scale a in
  let l1 := fmul confidence_scale l in
  configurator (VNum sigma2) (VNum tau) (VNum confidence_scale) s
    = Done (Hyper (VNum a1) (VNum confidence_scale) (VNum l1) (VNum confidence_scale)
                  (VNum a) (VNum l)) /\
  (b64_pos_finite a = true -> b64_pos_normal a1 = true ->
   b64_pos_normal (b64_mean a1 confidence_scale) = true ->
   Qabs (b64_val (b64_mean a1 confidence_scale) - b64_val a) <= eps_mean * b64_val a) /\
  (b64_pos_finite l = true -> b64_pos_normal l1 = true ->
   b64_pos_normal (b64_mean l1 confidence_scale) = true ->
   Qabs (b64_val (b64_mean l1 confidence_scale) - b64_val l) <= eps_mean * b64_val l).
Proof.
  intros Hs Ht HB a l a1 l1.
  split; [by apply configurator_run; apply b64_pos_finite_nonzero|].
  split; intros; by apply b64_mean_close.
Qed.

(** C6, as amended (monotonicity).  For fixed finite strictly positive
    [sigma2] and [tau], and two confidence scales with [B2] at least
    [B1 * (1 + 2^-48)], in the binary64 arithmetic of the script, the
    variance [alpha_1 / alpha_2**2] computed with [B2] is strictly smaller
    than the one computed with [B1], and likewise for [lambda_1 /
    lambda_2**2], whenever the precision is finite and the shapes, the
    squares and the variances are normal numbers. *)
Theorem variance_decreasing_up_to_rounding s s' (sigma2 tau B1 B2 : spec_float) :
  b64_pos_finite sigma2 = true -> b64_pos_finite tau = true ->
  b64_pos_finite B1 = true -> b64_pos_finite B2 = true ->
  b64_val B1 * (1 + eta_scale) <= b64_val B2 ->
  let a := fdiv (of_Z 1) sigma2 in
  let l := fdiv (of_Z 1) tau in
  configurator (VNum sigma2) (VNum tau) (VNum B1) s
    = Done (Hyper (VNum (fmul B1 a)) (VNum B1) (VNum (fmul B1 l)) (VNum B1)
                  (VNum a) (VNum l)) /\
  configurator (VNum sigma2) (VNum tau) (VNum B2) s'
    = Done (Hyper (VNum (fmul B2 a)) (VNum B2) (VNum (fmul B2 l)) (VNum B2)
                  (VNum a) (VNum l)) /\
  (b64_pos_normal (fmul B1 B1) = true -> b64_pos_normal (fmul B2 B2) = true ->
   (b64_pos_finite a = true ->
    b64_pos_normal (fmul B1 a) = true -> b64_pos_normal (fmul B2 a) = true ->
    b64_pos_normal (b64_variance (fmul B1 a) B1) = true ->
    b64_pos_normal (b64_variance (fmul B2 a) B2) = true ->
    b64_val (b64_variance (fmul B2 a) B2) < b64_val (b64_variance (fmul B1 a) B1)) /\
   (b64_pos_finite l = true ->
    b64_pos_normal (fmul B1 l) = true -> b64_pos_normal (fmul B2 l) = true ->
    b64_pos_normal (b64_variance (fmul B1 l) B1) = true ->
    b64_pos_normal (b64_variance (fmul B2 l) B2) = true ->
    b64_val (b64_variance (fmul B2 l) B2) < b64_val (b64_variance (fmul B1 l) B1))).
Proof.
  intros Hs Ht HB1 HB2 Hsep a l.
  split; [by apply configurator_run; apply b64_pos_finite_nonzero|].
  split; [by apply configurator_run; apply b64_pos_finite_nonzero|].
  intros HS1 HS2. split; intros; by apply b64_variance_decreasing.
Qed.

End Binary64Invariants.

(** C1 as stated fails in binary64.  With [sigma2 = 3] and the script's
    [10**5], [alpha_1 / alpha_2] is one unit in the last place below
    [1/sigma2]; with [sigma2 = 2^-1000] and [confidence_scale = 2^30] the
    shape overflows and the quotient is infinite. *)
Lemma mean_not_exact_in_binary64 :
  let three : spec_float := of_Z 3 in
  let tiny : spec_float := S754_finite false 4503599627370496 (-1052) in
  let scale : spec_float := S754_finite false 4503599627370496 (-22) in
  (b64_pos_finite three = true /\
   configurator (F:=spec_float) (VNum three) tau_lit big_number_lit fresh
     = Done (Hyper (VNum (fmul (of_Z (10 ^ 5)) (fdiv (of_Z 1) three))) big_number_lit
                   (VNum (of_Z 10000)) big_number_lit
                   (VNum (fdiv (of_Z 1) three)) (VNum (of_Q (1 # 10)))) /\
   fdiv (of_Z 1) three = S754_finite false 6004799503160661 (-54) /\
   b64_mean (fmul (of_Z (10 ^ 5)) (fdiv (of_Z 1) three)) (of_Z (10 ^ 5))
     = S754_finite false 6004799503160660 (-54)) /\
  (b64_pos_finite tiny = true /\ b64_pos_finite scale = true /\
   configurator (F:=spec_float) (VNum tiny) tau_lit (VNum scale) fresh
     = Done (Hyper (VNum (S754_infinity false)) (VNum scale)
                   (VNum (fmul scale (of_Q (1 # 10)))) (VNum scale)
                   (VNum (S754_finite false 4503599627370496 948))
                   (VNum (of_Q (1 # 10)))) /\
   b64_mean (S754_infinity false) scale = S754_infinity false).
Proof. vm_compute. repeat split. Qed.

(** C6 as stated fails in binary64.  With the script's [sigma2 = 11.8], the
    scale 759 and the next float above it give variances that grow by one
    unit in the last place. *)
Lemma variance_not_monotone_in_binary64 :
  let B1 : spec_float := of_Z 759 in
  let B2 : spec_float := S754_finite false 6676234603855873 (-43) in
  let a : spec_float := fdiv (of_Z 1) (of_Q (118 # 10)) in
  SFltb B1 B2 = true /\
  configurator (F:=spec_float) sigma2_lit tau_lit (VNum B1) fresh
    = Done (Hyper (VNum (fmul B1 a)) (VNum B1) (VNum (fmul B1 (of_Q (1 # 10)))) (VNum B1)
                  (VNum a) (VNum (of_Q (1 # 10)))) /\
  configurator (F:=spec_float) sigma2_lit tau_lit (VNum B2) fresh
    = Done (Hyper (VNum (fmul B2 a)) (VNum B2) (VNum (fmul B2 (of_Q (1 # 10)))) (VNum B2)
                  (VNum a) (VNum (of_Q (1 # 10)))) /\
  b64_variance (fmul B1 a) B1 = S754_finite false 8238647673660503 (-66) /\
  b64_variance (fmul B2 a) B2 = S754_finite false 8238647673660504 (-66) /\
  SFltb (b64_variance (fmul B1 a) B1) (b64_variance (fmul B2 a) B2) = true.
Proof. vm_compute. repeat split. Qed.

Lemma mean_preserved_up_to_rounding_witness :
  let a : spec_float := fdiv (of_Z 1) (of_Q (118 # 10)) in
  let l : spec_float := fdiv (of_Z 1) (of_Z 10) in
  let B : spec_float := of_Z (10 ^ 5) in
  (Qabs (b64_val (b64_mean (fmul B a) B) - b64_val a) <= eps_mean * b64_val a)%Q /\
  (Qabs (b64_val (b64_mean (fmul B l) B) - b64_val l) <= eps_mean * b64_val l)%Q.
Proof.
  intros a l B.
  destruct (mean_preserved_up_to_rounding fresh (of_Q (118 # 10)) (of_Z 10) (of_Z (10 ^ 5)))
    as (_ & Ha & Hl); try (vm_compute; reflexivity).
  split; [apply Ha|apply Hl]; vm_compute; reflexivity.
Defined.

Lemma variance_decreasing_up_to_rounding_witness :
  let a : spec_float := fdiv (of_Z 1) (of_Q (118 # 10)) in
  let l : spec_float := fdiv (of_Z 1) (of_Z 10) in
  let B1 : spec_float := of_Z (10 ^ 4) in
  let B2 : spec_float := of_Z (10 ^ 5) in
  (b64_val (b64_variance (fmul B2 a) B2) < b64_val (b64_variance (fmul B1 a) B1))%Q /\
  (b64_val (b64_variance (fmul B2 l) B2) < b64_val (b64_variance (fmul B1 l) B1))%Q.
Proof.
  intros a l B1 B2.
  destruct (variance_decreasing_up_to_rounding fresh fresh
              (of_Q (118 # 10)) (of_Z 10) (of_Z (10 ^ 4)) (of_Z (10 ^ 5)))
    as (_ & _ & Hv); try (vm_compute; reflexivity).
  { vm_compute. discriminate. }
  destruct Hv as [Ha Hl]; try (vm_compute; reflexivity).
  split; [apply Ha|apply Hl]; vm_compute; reflexivity.
Defined.
